(** * Response-time analysis for fixed-priority scheduling: a shallow embedding

    This development embeds the analysis engine of the [rta] package
    ([rta/models.py], [rta/analysis.py], [rta/generators.py]) and proves
    properties of it.

    Numbers.  The Python code computes on [float].  Here a float is an exact
    rational ([Q]); every comparison and every arithmetic step of the source
    is kept, including the convergence tolerance [1e-9], and results are
    compared with [Qeq]/[Qle].  Rounding, infinities and NaN are outside the
    model.  A Python [int] is a [Z].

    What the exact model leaves out, function by function:
    - [Task_init]: NaN makes every comparison of [__post_init__] false, so
      [Task(C=nan, T=1.0)] is constructed; a rational is never NaN;
    - [utilization], [total_utilization]: the quotient [C / T] rounds, and
      underflows to [0.0] for [C = 1e-200], [T = 1e200]; float sums depend
      on the order of the summands;
    - [interference], [compute_response_time]: [ceil] is taken of the
      rounded quotient [R_prev / T_j], the sum absorbs summands far below
      its magnitude, and [math.ceil] raises [OverflowError] on an infinite
      quotient;
    - [uunifast]: the partial sums round, so the returned values add up to
      [u_total] only up to rounding; [uunifast_binary64] below is the same
      function on IEEE binary64 and measures that error;
    - [count_schedulable]: the seed is [int (u_total * 1000)] of the rounded
      product.
    The statements below are therefore statements about exact arithmetic,
    unless they name [uunifast_binary64].

    Exceptions.  A function that can [raise] returns a [result]; the
    exception value records the Python class that was raised and the pieces
    of its f-string message. *)

From Stdlib Require Import PrimFloat.
From Stdlib Require FloatOps Uint63.
From Stdlib Require Import QArith Qround Qabs Lqa ZArith Lia.
From Stdlib Require Import DecimalString.
From stdpp Require Import strings gmap list sorting.

Local Open Scope Q_scope.

(* ===================================================================== *)
(** * Part I: the program                                                  *)
(* ===================================================================== *)

(** ** Exceptions *)

(** One piece of an f-string: literal text, or the rendering of a float or
    of an int (the rendering itself is not modelled for floats). *)
Inductive fragment :=
| Text (s : string)
| FloatRepr (x : Q)
| IntRepr (z : Z).

(** A raised exception: the name of its class and its message. *)
Record exception := { exc_class : string; exc_msg : list fragment }.

(** Every [raise] of the package is [raise ValueError(...)]. *)
Definition ValueError (msg : list fragment) : exception :=
  {| exc_class := "ValueError"; exc_msg := msg |}.

Inductive result (A : Type) :=
| Ok (a : A)
| Raise (e : exception).
Arguments Ok {A} a.
Arguments Raise {A} e.

(** Exception propagation; [x ← r; k] runs [k] unless [r] raised. *)
#[global] Instance result_ret : MRet result := fun A a => Ok a.
#[global] Instance result_bind : MBind result := fun A B k r =>
  match r with
  | Ok a => k a
  | Raise e => Raise e
  end.

Definition is_ok {A} (r : result A) : bool :=
  match r with Ok _ => true | Raise _ => false end.

(** ** rta/models.py: Task *)

(** [str(i)] for a Python int. *)
Definition str_of_int (z : Z) : string :=
  NilZero.string_of_int (Z.to_int z).

(** The frozen dataclass after [__post_init__]: [D] is always a number. *)
Record Task := {
  C : Q;
  T : Q;
  D : Q;
  name : string;
  priority : option Z
}.

(** [Task(C, T, D, name, priority)]: the dataclass constructor followed by
    [__post_init__], check by check in source order. *)
Definition Task_init (c t : Q) (d : option Q) (nm : string)
    (prio : option Z) : result Task :=
  if Qle_bool c 0 then
    Raise (ValueError [Text "Task "; Text nm;
                       Text ": C must be positive, got "; FloatRepr c])
  else if Qle_bool t 0 then
    Raise (ValueError [Text "Task "; Text nm;
                       Text ": T must be positive, got "; FloatRepr t])
  else if negb (Qle_bool c t) then
    Raise (ValueError [Text "Task "; Text nm; Text ": C ("; FloatRepr c;
                       Text ") cannot exceed T ("; FloatRepr t; Text ")"])
  else
    d' ← match d with
          | None => Ok t
          | Some d0 =>
              if Qle_bool d0 0 then
                Raise (ValueError [Text "Task "; Text nm;
                                   Text ": D must be positive, got ";
                                   FloatRepr d0])
              else if negb (Qle_bool d0 t) then
                Raise (ValueError [Text "Task "; Text nm; Text ": D (";
                                   FloatRepr d0; Text ") cannot exceed T (";
                                   FloatRepr t; Text ")"])
              else Ok d0
          end;
    if negb (Qle_bool c d') then
      Raise (ValueError [Text "Task "; Text nm; Text ": C ("; FloatRepr c;
                         Text ") cannot exceed D ("; FloatRepr d'; Text ")"])
    else
      Ok {| C := c; T := t; D := d'; name := nm; priority := prio |}.

(** What [__post_init__] establishes of every [Task] value. *)
Definition valid_task (t : Task) : Prop :=
  0 < C t /\ 0 < T t /\ 0 < D t /\ C t <= T t /\ D t <= T t /\ C t <= D t.

Definition utilization (t : Task) : Q := C t / T t.

(** ** rta/analysis.py: compute_response_time *)

(** The tolerance of the convergence test, [1e-9]. *)
Definition epsilon : Q := 1 # 1000000000.

(** The inner [for hp_task in higher_priority_tasks] loop: the accumulator
    starts at [0.0] and adds [ceil(R_prev / T_j) * C_j] per task. *)
Definition interference (higher_priority_tasks : list Task) (R_prev : Q) : Q :=
  fold_left
    (fun acc hp_task =>
       acc + inject_Z (Qceiling (R_prev / T hp_task)) * C hp_task)
    higher_priority_tasks 0.

(** [R_new = task.C + interference]. *)
Definition R_next (task : Task) (hp : list Task) (R_prev : Q) : Q :=
  C task + interference hp R_prev.

(** The three ways out of the loop.  The source returns [None] at two
    places: on a deadline miss inside the loop, and after the loop when
    [max_iterations] is used up. *)
Inductive outcome :=
| Converged (R : Q)
| DeadlineMiss
| Exhausted.

(** The [for iteration in range(max_iterations)] loop, [iters] iterations
    left, with the current [R_prev]. *)
Fixpoint rta_loop (iters : nat) (task : Task) (hp : list Task)
    (R_prev : Q) : outcome :=
  match iters with
  | O => Exhausted
  | S iters' =>
      let R_new := R_next task hp R_prev in
      if Qlt_le_dec (D task) R_new then DeadlineMiss
      else if Qlt_le_dec (Qabs (R_new - R_prev)) epsilon then Converged R_new
      else rta_loop iters' task hp R_new
  end.

Definition outcome_value (o : outcome) : option Q :=
  match o with
  | Converged R => Some R
  | DeadlineMiss | Exhausted => None
  end.

(** [range(n)] is empty for [n <= 0]. *)
Definition compute_response_time (task : Task)
    (higher_priority_tasks : list Task) (max_iterations : Z) : option Q :=
  outcome_value
    (rta_loop (Z.to_nat max_iterations) task higher_priority_tasks (C task)).

Definition default_max_iterations : Z := 1000.


(** ** rta/models.py: TaskSet *)

(** Python's [sorted(xs, key=...)] and [list.sort(key=...)] are stable: the
    result is ascending in the key and elements with equal keys keep their
    input order.  The sorting algorithm itself is the interpreter's; a
    stable insertion sort stands for it, with [leb x y] the test
    [key(x) <= key(y)]. *)
Fixpoint insert_by {A} (leb : A -> A -> bool) (x : A) (l : list A) : list A :=
  match l with
  | [] => [x]
  | y :: l' => if leb x y then x :: y :: l' else y :: insert_by leb x l'
  end.

Definition py_sorted {A} (leb : A -> A -> bool) (l : list A) : list A :=
  foldr (insert_by leb) [] l.

(** [key=lambda t: t.T]. *)
Definition period_le (a b : Task) : bool := Qle_bool (T a) (T b).

(** [key=lambda t: t.priority if t.priority is not None else float('inf')]. *)
Definition priority_key_le (a b : Task) : bool :=
  match priority a, priority b with
  | _, None => true
  | None, Some _ => false
  | Some x, Some y => (x <=? y)%Z
  end.

(** The mutable dataclass: the task list and the [_sorted] flag. *)
Record TaskSet := { tasks : list Task; _sorted : bool }.

Definition has_priority (t : Task) : bool :=
  match priority t with Some _ => true | None => false end.

(** Truthiness of a [str]. *)
Definition nonempty (s : string) : bool :=
  match s with EmptyString => false | String _ _ => true end.

(** The body of the [for i, task in enumerate(sorted_tasks)] loop of
    [_assign_rate_monotonic_priorities], from index [i] on.  Each new task
    goes through the [Task] constructor and its validation again. *)
Fixpoint assign_from (i : Z) (sorted_tasks : list Task) : result (list Task) :=
  match sorted_tasks with
  | [] => Ok []
  | task :: rest =>
      new_task ← Task_init (C task) (T task) (Some (D task))
                   (if nonempty (name task) then name task
                    else "τ" +:+ str_of_int (i + 1))
                   (Some i);
      new_tasks ← assign_from (i + 1) rest;
      Ok (new_task :: new_tasks)
  end.

Definition _assign_rate_monotonic_priorities (self : TaskSet)
    : result TaskSet :=
  let sorted_tasks := py_sorted period_le (tasks self) in
  new_tasks ← assign_from 0 sorted_tasks;
  Ok {| tasks := new_tasks; _sorted := true |}.

(** [TaskSet(tasks=...)]: the constructor followed by [__post_init__]. *)
Definition TaskSet_init (ts : list Task) : result TaskSet :=
  let self := {| tasks := ts; _sorted := false |} in
  match ts with
  | [] => Ok self
  | _ =>
      if forallb has_priority ts then Ok self
      else if forallb (fun t => negb (has_priority t)) ts then
        _assign_rate_monotonic_priorities self
      else
        Raise (ValueError
          [Text "Either all tasks must have priorities set, or none should."])
  end.

(** [get_sorted_tasks] sorts the list in place on first use and sets the
    flag; it returns the list together with the updated object. *)
Definition get_sorted_tasks (self : TaskSet) : list Task * TaskSet :=
  if _sorted self then (tasks self, self)
  else
    let l := py_sorted priority_key_le (tasks self) in
    (l, {| tasks := l; _sorted := true |}).

(** [t.priority is not None and t.priority < p]. *)
Definition priority_below (p : Z) (t : Task) : bool :=
  match priority t with
  | Some q => (q <? p)%Z
  | None => false
  end.

Definition get_higher_priority_tasks (self : TaskSet) (task : Task)
    : result (list Task * TaskSet) :=
  match priority task with
  | None =>
      Raise (ValueError [Text "Task "; Text (name task);
                         Text " has no priority assigned"])
  | Some p =>
      let '(sorted_tasks, self') := get_sorted_tasks self in
      Ok (List.filter (priority_below p) sorted_tasks, self')
  end.

(** [sum(t.utilization for t in self.tasks)]. *)
Definition total_utilization (self : TaskSet) : Q :=
  fold_left (fun acc t => acc + utilization t) (tasks self) 0.

(** ** rta/analysis.py: analyze_taskset *)

(** [task.name if task.name else f"Task_prio_{task.priority}"]. *)
Definition task_key (task : Task) : string :=
  if nonempty (name task) then name task
  else "Task_prio_" +:+
       match priority task with
       | Some p => str_of_int p
       | None => "None"
       end.

(** The [for task in sorted_tasks] loop.  Its state is the task set object
    (whose cache [get_higher_priority_tasks] may fill), the dictionary and
    the flag.  The result carries the final task set object besides the
    pair that the source returns. *)
Fixpoint analyze_loop (sorted_tasks : list Task) (taskset : TaskSet)
    (response_times : gmap string (option Q)) (all_schedulable : bool)
    : result (bool * gmap string (option Q) * TaskSet) :=
  match sorted_tasks with
  | [] => Ok (all_schedulable, response_times, taskset)
  | task :: rest =>
      '(hp_tasks, taskset') ← get_higher_priority_tasks taskset task;
      let rt := compute_response_time task hp_tasks default_max_iterations in
      let response_times' := <[task_key task := rt]> response_times in
      let all_schedulable' :=
        match rt with None => false | Some _ => all_schedulable end in
      analyze_loop rest taskset' response_times' all_schedulable'
  end.

Definition analyze_taskset (taskset : TaskSet)
    : result (bool * gmap string (option Q) * TaskSet) :=
  let '(sorted_tasks, taskset') := get_sorted_tasks taskset in
  analyze_loop sorted_tasks taskset' ∅ true.

(** ** rta/generators.py *)

(** The interpreter's [random.Random]: a generator state, its construction
    from an optional seed, and [random()], which returns the next draw and
    the advanced state. *)
Class PRNG := {
  rng : Type;
  Random : option Z -> rng;
  random : rng -> Q * rng
}.

(** The float operations that have no rational counterpart: [x ** y],
    [math.log] and [math.exp]. *)
Class FloatMath := {
  pow : Q -> Q -> Q;
  log : Q -> Q;
  exp : Q -> Q
}.

(** [rng.uniform(a, b)] is [a + (b - a) * rng.random()]. *)
Definition uniform `{PRNG} (g : rng) (a b : Q) : Q * rng :=
  let '(x, g') := random g in (a + (b - a) * x, g').

(** The [for i in range(1, n)] loop of [uunifast] with [count] iterations
    left, the next index being [i]. *)
Fixpoint uunifast_loop `{PRNG} `{FloatMath} (count : nat) (n i : Z)
    (g : rng) (sum_u : Q) (utilizations : list Q) : list Q * Q :=
  match count with
  | O => (utilizations, sum_u)
  | S count' =>
      let '(x, g') := random g in
      let next_sum_u := sum_u * pow x (1 / inject_Z (n - i)) in
      uunifast_loop count' n (i + 1) g' next_sum_u
        (utilizations ++ [sum_u - next_sum_u])
  end.

Definition uunifast `{PRNG} `{FloatMath} (n : Z) (u_total : Q)
    (seed : option Z) : result (list Q) :=
  if (n <=? 0)%Z then
    Raise (ValueError [Text "Number of tasks must be positive"])
  else if negb (Qle_bool 0 u_total) then
    Raise (ValueError [Text "Target utilization must be non-negative"])
  else
    let g := Random seed in
    let '(utilizations, sum_u) :=
      uunifast_loop (Z.to_nat (n - 1)) n 1 g u_total [] in
    Ok (utilizations ++ [sum_u]).

(** ** rta/generators.py: uunifast on binary64

    [uunifast] once more, with Python's [float] as the kernel's IEEE 754
    binary64 numbers instead of rationals: the same statements in the same
    order, every arithmetic step rounding as the interpreter's does. *)

(** [random.Random] with binary64 draws. *)
Class PRNG_binary64 := {
  rng_binary64 : Type;
  Random_binary64 : option Z -> rng_binary64;
  random_binary64 : rng_binary64 -> float * rng_binary64
}.

(** [x ** y] on binary64. *)
Class Pow_binary64 := {
  pow_binary64 : float -> float -> float
}.

(** The conversion of the [int] operand of [1.0 / (n - i)], for
    [0 <= z < 2 ^ 63]; exact below [2 ^ 53]. *)
Definition float_of_int (z : Z) : float := of_uint63 (Uint63.of_Z z).

Fixpoint uunifast_loop_binary64 `{PRNG_binary64} `{Pow_binary64}
    (count : nat) (n i : Z) (g : rng_binary64) (sum_u : float)
    (utilizations : list float) : list float * float :=
  match count with
  | O => (utilizations, sum_u)
  | S count' =>
      let '(x, g') := random_binary64 g in
      let next_sum_u :=
        PrimFloat.mul sum_u
          (pow_binary64 x (PrimFloat.div 1 (float_of_int (n - i)))) in
      uunifast_loop_binary64 count' n (i + 1) g' next_sum_u
        (utilizations ++ [PrimFloat.sub sum_u next_sum_u])
  end.

Definition uunifast_binary64 `{PRNG_binary64} `{Pow_binary64} (n : Z)
    (u_total : float) (seed : option Z) : result (list float) :=
  if (n <=? 0)%Z then
    Raise (ValueError [Text "Number of tasks must be positive"])
  else if PrimFloat.ltb u_total 0 then
    Raise (ValueError [Text "Target utilization must be non-negative"])
  else
    let g := Random_binary64 seed in
    let '(utilizations, sum_u) :=
      uunifast_loop_binary64 (Z.to_nat (n - 1)) n 1 g u_total [] in
    Ok (utilizations ++ [sum_u]).

(** The [for i, u in enumerate(utilizations)] loop of [generate_taskset]. *)
Fixpoint generate_loop `{PRNG} `{FloatMath} (i : Z) (utilizations : list Q)
    (g : rng) (period_min period_max : Q)
    (deadline_factor_min deadline_factor_max : Q) : result (list Task) :=
  match utilizations with
  | [] => Ok []
  | u :: rest =>
      let log_min := log period_min in
      let log_max := log period_max in
      let '(x, g1) := uniform g log_min log_max in
      let t := exp x in
      let c := u * t in
      let '(deadline_factor, g2) :=
        if Qeq_bool deadline_factor_min deadline_factor_max
        then (deadline_factor_min, g1)
        else uniform g1 deadline_factor_min deadline_factor_max in
      let d := t * deadline_factor in
      let d := if negb (Qle_bool c d) then c else d in
      task ← Task_init c t (Some d) ("τ" +:+ str_of_int (i + 1)) None;
      tasks ← generate_loop (i + 1) rest g2 period_min period_max
                 deadline_factor_min deadline_factor_max;
      Ok (task :: tasks)
  end.

Definition generate_taskset `{PRNG} `{FloatMath} (n : Z)
    (target_utilization : Q) (period_min period_max : Q)
    (deadline_factor_min deadline_factor_max : Q) (seed : option Z)
    : result TaskSet :=
  if Qle_bool period_min 0 || Qle_bool period_max 0
     || negb (Qle_bool period_min period_max) then
    Raise (ValueError [Text "Invalid period range"])
  else if Qle_bool deadline_factor_min 0
          || negb (Qle_bool deadline_factor_min deadline_factor_max) then
    Raise (ValueError [Text "Invalid deadline factor range"])
  else if negb (Qle_bool deadline_factor_max 1) then
    Raise (ValueError
      [Text "Deadline factor cannot exceed 1.0 (D must be <= T)"])
  else
    let g := Random seed in
    utilizations ← uunifast n target_utilization seed;
    tasks ← generate_loop 0 utilizations g period_min period_max
               deadline_factor_min deadline_factor_max;
    TaskSet_init tasks.

(** The [for] loop of [generate_random_task_set_uunifast]. *)
Fixpoint generate_flat_loop `{PRNG} `{FloatMath} (i : Z)
    (utilizations : list Q) (g : rng) (min_period max_period : Q)
    : result (list Task) :=
  match utilizations with
  | [] => Ok []
  | u :: rest =>
      let log_min := log min_period in
      let log_max := log max_period in
      let '(x, g1) := uniform g log_min log_max in
      let t := exp x in
      let c := u * t in
      let c := if negb (Qle_bool (1 # 1000) c) then 1 # 1000 else c in
      let d := t in
      let c := if negb (Qle_bool c d) then d else c in
      task ← Task_init c t (Some d) ("τ" +:+ str_of_int (i + 1)) None;
      tasks ← generate_flat_loop (i + 1) rest g1 min_period max_period;
      Ok (task :: tasks)
  end.

Definition generate_random_task_set_uunifast `{PRNG} `{FloatMath} (n : Z)
    (u_total : Q) (min_period max_period : Q) (seed : option Z)
    : result (list Task) :=
  if (n <=? 0)%Z then
    Raise (ValueError [Text "Number of tasks must be positive"])
  else if Qle_bool min_period 0 || Qle_bool max_period 0
          || negb (Qle_bool min_period max_period) then
    Raise (ValueError [Text "Invalid period range"])
  else if negb (Qle_bool 0 u_total) then
    Raise (ValueError [Text "Target utilization must be non-negative"])
  else
    let g := Random seed in
    utilizations ← uunifast n u_total seed;
    generate_flat_loop 0 utilizations g min_period max_period.

(** ** rta/models.py: the container protocol of TaskSet *)

(** [len(taskset)]. *)
Definition TaskSet_len (self : TaskSet) : Z := Z.of_nat (length (tasks self)).

(** ** experiments/sched_util_plot.py: run_schedulability_experiment *)

(** [a / b] on two ints raises on a zero divisor. *)
Definition ZeroDivisionError (msg : list fragment) : exception :=
  {| exc_class := "ZeroDivisionError"; exc_msg := msg |}.

Definition int_truediv (a b : Z) : result Q :=
  if (b =? 0)%Z then Raise (ZeroDivisionError [Text "division by zero"])
  else Ok (inject_Z a / inject_Z b).

(** [int(x)] on a float truncates toward zero. *)
Definition int_of_float (x : Q) : Z := Z.quot (Qnum x) (Z.pos (Qden x)).

(** The [results] dict, keyed by utilisation: an association list in
    insertion order.  [results[k] = v] overwrites the entry of an equal key
    in place and appends otherwise; floats are equal as numbers. *)
Fixpoint dict_set (k v : Q) (d : list (Q * Q)) : list (Q * Q) :=
  match d with
  | [] => [(k, v)]
  | (k', v') :: d' =>
      if Qeq_bool k' k then (k', v) :: d' else (k', v') :: dict_set k v d'
  end.

Fixpoint dict_get (k : Q) (d : list (Q * Q)) : option Q :=
  match d with
  | [] => None
  | (k', v') :: d' => if Qeq_bool k' k then Some v' else dict_get k d'
  end.

(** The inner [for i in range(num_task_sets_per_point)] loop, [iters]
    iterations left, the next index being [i]. *)
Fixpoint count_schedulable `{PRNG} `{FloatMath} (iters : nat) (i : Z)
    (schedulable_count : Z) (u_total : Q) (num_tasks : Z)
    (min_period max_period : Q) (seed : Z) : result Z :=
  match iters with
  | O => Ok schedulable_count
  | S iters' =>
      let task_set_seed := (seed + int_of_float (u_total * 1000) + i)%Z in
      taskset ← generate_taskset num_tasks u_total min_period max_period
                  1 1 (Some task_set_seed);
      '(schedulable, _, _) ← analyze_taskset taskset;
      count_schedulable iters' (i + 1)
        (if schedulable : bool then (schedulable_count + 1)%Z
         else schedulable_count)
        u_total num_tasks min_period max_period seed
  end.

(** The outer [for u_total in utilisation_points] loop. *)
Fixpoint experiment_loop `{PRNG} `{FloatMath} (utilisation_points : list Q)
    (results : list (Q * Q)) (num_task_sets_per_point num_tasks : Z)
    (min_period max_period : Q) (seed : Z) : result (list (Q * Q)) :=
  match utilisation_points with
  | [] => Ok results
  | u_total :: rest =>
      schedulable_count ←
        count_schedulable (Z.to_nat num_task_sets_per_point) 0 0 u_total
          num_tasks min_period max_period seed;
      schedulability_ratio ←
        int_truediv schedulable_count num_task_sets_per_point;
      experiment_loop rest (dict_set u_total schedulability_ratio results)
        num_task_sets_per_point num_tasks min_period max_period seed
  end.

Definition run_schedulability_experiment `{PRNG} `{FloatMath}
    (utilisation_points : list Q) (num_task_sets_per_point num_tasks : Z)
    (min_period max_period : Q) (seed : Z) : result (list (Q * Q)) :=
  experiment_loop utilisation_points [] num_task_sets_per_point num_tasks
    min_period max_period seed.

(* ===================================================================== *)
(** * Part II: vocabulary of the properties                                *)
(* ===================================================================== *)

(** ** Fixed-point iteration *)


(** The estimates of the fixed-point iteration: [iterate_from k R0] is the
    estimate [k] iterations after [R0], and [iterate k] is [R_k] with
    [R_0 = C]. *)
Fixpoint iterate_from (task : Task) (hp : list Task) (k : nat) (R0 : Q) : Q :=
  match k with
  | O => R0
  | S k' => iterate_from task hp k' (R_next task hp R0)
  end.

Definition iterate (task : Task) (hp : list Task) (k : nat) : Q :=
  iterate_from task hp k (C task).

(** ** Priority assignment *)

(** The task that [_assign_rate_monotonic_priorities] builds from [task] at
    index [i] of the sorted list. *)
Definition rederive (i : Z) (task : Task) : Task :=
  {| C := C task;
     T := T task;
     D := D task;
     name := if nonempty (name task) then name task
             else "τ" +:+ str_of_int (i + 1);
     priority := Some i |}.

(** [a] has a strictly smaller priority number than [b]. *)
Definition priority_lt (a b : Task) : Prop :=
  exists pa pb, priority a = Some pa /\ priority b = Some pb /\ (pa < pb)%Z.

(** Two elements have the same sort key, [leb] being the key order. *)
Definition same_key {A} (leb : A -> A -> bool) (k y : A) : bool :=
  leb k y && leb y k.

(** ** Task-set analysis *)

(** The higher-priority subset of [task] within the priority-sorted list,
    as [get_higher_priority_tasks] filters it. *)
Definition hp_subset (sorted_tasks : list Task) (task : Task) : list Task :=
  match priority task with
  | Some p => List.filter (priority_below p) sorted_tasks
  | None => []
  end.

(** The response time that [analyze_taskset] computes for [task]. *)
Definition response_of (sorted_tasks : list Task) (task : Task) : option Q :=
  compute_response_time task (hp_subset sorted_tasks task)
    default_max_iterations.

(** Whether that response time exists. *)
Definition has_response (sorted_tasks : list Task) (task : Task) : bool :=
  match response_of sorted_tasks task with Some _ => true | None => false end.

(** The dictionary after the analysis loop has stored the results of the
    tasks [l], in order, into [d]. *)
Definition record_all (sorted_tasks l : list Task)
    (d : gmap string (option Q)) : gmap string (option Q) :=
  foldl (fun d t => <[task_key t := response_of sorted_tasks t]> d) d l.

(** ** Generator *)

(** Python's [sum(xs)]: a left fold from [0]. *)
Definition py_sum (xs : list Q) : Q := fold_left Qplus xs 0.

(** ** Concrete inputs *)

(** A task record as [Task(C, T, D, name, priority)] stores it. *)
Definition task_of (c t d : Q) (nm : string) (p : option Z) : Task :=
  {| C := c; T := t; D := d; name := nm; priority := p |}.

(** The two-task scenario of the unit tests: [τ1 = (C=1, T=4)] above
    [τ2 = (C=2, T=6)]. *)
Definition tau1 : Task := task_of 1 4 4 "" (Some 0%Z).
Definition tau2 : Task := task_of 2 6 6 "" (Some 1%Z).

(** The three tasks of the Rate-Monotonic unit test, in insertion order,
    and the same tasks after Rate-Monotonic assignment. *)
Definition rm_example : list Task :=
  [task_of 1 10 10 "τ1" None; task_of 2 20 20 "τ2" None;
   task_of 3 5 5 "τ3" None].

Definition rm_example_assigned : list Task :=
  [task_of 3 5 5 "τ3" (Some 0%Z); task_of 1 10 10 "τ1" (Some 1%Z);
   task_of 2 20 20 "τ2" (Some 2%Z)].


(** One task with a priority and one without. *)
Definition mixed_example : list Task :=
  [task_of 1 4 4 "a" (Some 0%Z); task_of 1 5 5 "b" None].

(** A target, [Task(C=1, T=10, D=1)], whose first estimate both misses the
    deadline and lies within the tolerance of the previous one. *)
Definition tight_task : Task := task_of 1 10 1 "" None.
Definition tiny_hp : Task := task_of (1 # 10000000000) 10 10 "" None.



(** A workload that needs four iterations alone and three with one more
    task. *)
Definition cap_target : Task := task_of 1 8 8 "" None.
Definition cap_hp : list Task := [task_of (1 # 64) (1 # 8) (1 # 8) "" None].
Definition cap_e : Task := task_of (1 # 16) 100 100 "" None.

(** A generator for concrete runs: the state is a counter [g] and the draw
    is [1 / (g + 2)], a number of [[0, 1)]. *)
Definition counter_prng : PRNG :=
  {| rng := nat;
     Random := fun seed => Z.to_nat (default 0%Z seed);
     random := fun g => (1 # Pos.of_succ_nat (S g), S g) |}.

(** Stand-ins for the float functions in concrete runs.  [pow x y = x] is
    exact for the exponent [1.0], the only one [uunifast] uses when
    [n = 2]. *)
Definition coarse_math : FloatMath :=
  {| pow := fun x _ => x; log := fun x => x; exp := fun x => x |}.

(** ** Generator on binary64 *)

(** Python's [sum(xs)] on binary64: a left fold from [0]. *)
Definition py_sum_binary64 (xs : list float) : float :=
  fold_left PrimFloat.add xs 0%float.

(** The rational that a finite binary64 number denotes. *)
Definition Q_of_float (x : float) : Q :=
  match FloatOps.Prim2SF x with
  | SpecFloat.S754_finite s m e =>
      let mantissa := inject_Z (if s then Z.neg m else Z.pos m) in
      if (0 <=? e)%Z then mantissa * inject_Z (2 ^ e)
      else mantissa / inject_Z (2 ^ (- e))
  | _ => 0
  end.

(** The first two draws of [random.Random(49)], as [float.hex] prints
    them. *)
Definition seed49_draws : list float :=
  [0x1.11f4eeb04c018p-4%float; 0x1.a7291ff77718cp-2%float].

(** A generator that replays these draws. *)
Definition seed49_prng : PRNG_binary64 :=
  {| rng_binary64 := list float;
     Random_binary64 := fun _ => seed49_draws;
     random_binary64 := fun g =>
       match g with
       | x :: g' => (x, g')
       | [] => (0%float, [])
       end |}.

(** [x ** 0.5] as the correctly rounded square root and [x ** 1.0 = x]:
    the two exponents that [uunifast] uses for [n = 3]. *)
Definition sqrt_pow : Pow_binary64 :=
  {| pow_binary64 := fun x y =>
       if PrimFloat.eqb y 0.5 then PrimFloat.sqrt x else x |}.

(** ** Error messages *)

(** [str(e)]: the f-string with its pieces rendered, [float_repr] being
    the rendering of a float. *)
Definition render_fragment (float_repr : Q -> string) (f : fragment)
    : string :=
  match f with
  | Text s => s
  | FloatRepr x => float_repr x
  | IntRepr z => str_of_int z
  end.

Definition render (float_repr : Q -> string) (msg : list fragment) : string :=
  foldr (fun f acc => render_fragment float_repr f +:+ acc) "" msg.

(** The message of [TaskSet.__post_init__] and the messages of
    [uunifast] and [generate_taskset]. *)
Definition taskset_message : string :=
  "Either all tasks must have priorities set, or none should.".

Definition generator_messages : list string :=
  ["Number of tasks must be positive";
   "Target utilization must be non-negative";
   "Invalid period range";
   "Invalid deadline factor range";
   "Deadline factor cannot exceed 1.0 (D must be <= T)"].

(** One of the tests of [Task.__post_init__] holds: [C <= 0], [T <= 0],
    [C > T] and, for a given deadline, [D <= 0], [D > T], [C > D]. *)
Definition task_check_fails (c t : Q) (d : option Q) : Prop :=
  c <= 0 \/ t <= 0 \/ t < c
  \/ match d with
     | Some d0 => d0 <= 0 \/ t < d0 \/ d0 < c
     | None => False
     end.

(** One of the tests of [generate_taskset], or of the [uunifast] it
    calls, holds. *)
Definition generator_check_fails (n : Z) (u pmin pmax dmin dmax : Q)
    : Prop :=
  pmin <= 0 \/ pmax <= 0 \/ pmax < pmin
  \/ dmin <= 0 \/ dmax < dmin \/ 1 < dmax
  \/ (n <= 0)%Z \/ u < 0.

(** ** Workload measures *)

(** The utilization of a list of tasks, summed from the right. *)
Definition sum_utilization (l : list Task) : Q :=
  foldr (fun t acc => utilization t + acc) 0 l.

(** The timing parameters of a task. *)
Definition timing (t : Task) : Q * Q * Q := (C t, T t, D t).

(** Some task of [l] has a priority and some task has none. *)
Definition mixed_priorities (l : list Task) : Prop :=
  exists a b, a ∈ l /\ b ∈ l /\ has_priority a = true
              /\ has_priority b = false.

(* ===================================================================== *)
(** * Part III: properties                                                 *)
(* ===================================================================== *)

(** ** Rational arithmetic and interference *)

(** Validity of concrete tasks, by evaluation. *)
Ltac valid_tasks := repeat constructor; cbn; lra.


Lemma Qdiv_nonneg (x y : Q) : 0 <= x -> 0 < y -> 0 <= x / y.
Proof.
  intros Hx Hy. apply Qle_shift_div_l; [done | lra].
Qed.

Lemma Qdiv_pos (x y : Q) : 0 < x -> 0 < y -> 0 < x / y.
Proof.
  intros Hx Hy. apply Qlt_shift_div_l; [done | lra].
Qed.









(** ** compute_response_time *)

(** The scenarios of the unit tests. *)
Example single_task_response :
  compute_response_time (task_of 2 10 10 "" None) [] default_max_iterations
  = Some 2.
Proof. reflexivity. Qed.

Example two_tasks_response :
  compute_response_time tau2 [tau1] default_max_iterations = Some 3.
Proof. reflexivity. Qed.

Example overloaded_task_unschedulable :
  compute_response_time (task_of 3 5 5 "" (Some 1%Z))
    [task_of 3 5 5 "" (Some 0%Z)] default_max_iterations = None.
Proof. reflexivity. Qed.

Example deadline_met_with_equality :
  compute_response_time (task_of 3 10 5 "" (Some 1%Z))
    [task_of 2 5 5 "" (Some 0%Z)] default_max_iterations = Some 5.
Proof. reflexivity. Qed.

Example execution_time_above_period :
  is_ok (Task_init 11 10 None "" None) = false.
Proof. reflexivity. Qed.

(** C10. With [max_iterations = 0] the loop body never runs and the result
    is [None], whatever the task and the higher-priority list, even an
    empty one. *)
Theorem zero_iterations_unschedulable task hp :
  compute_response_time task hp 0 = None.
Proof. reflexivity. Qed.




(** On every iteration the deadline test comes first: an estimate above
    the deadline ends the loop with a miss, whether or not it is within
    the tolerance of the previous estimate. *)
Lemma rta_loop_deadline_first task hp iters R_prev :
  D task < R_next task hp R_prev ->
  rta_loop (S iters) task hp R_prev = DeadlineMiss.
Proof.
  intros Hmiss. cbn [rta_loop].
  destruct (Qlt_le_dec _ _) as [_ | Hle]; [done | lra].
Qed.

Lemma rta_loop_miss task hp k : forall n R0,
  (k < n)%nat ->
  (forall j, (j < k)%nat ->
     ~ Qabs (iterate_from task hp (S j) R0 - iterate_from task hp j R0)
       < epsilon) ->
  D task < iterate_from task hp (S k) R0 ->
  outcome_value (rta_loop n task hp R0) = None.
Proof.
  induction k as [| k IH]; intros n R0 Hk Hnc Hmiss;
    (destruct n as [| n]; [lia |]); cbn [rta_loop].
  - cbn [iterate_from] in Hmiss.
    destruct (Qlt_le_dec _ _) as [_ | Hle]; [done | lra].
  - destruct (Qlt_le_dec _ _) as [_ | _]; [done |].
    destruct (Qlt_le_dec _ _) as [Hconv | _].
    + exfalso. apply (Hnc 0%nat); [lia | exact Hconv].
    + apply IH; [lia | | exact Hmiss].
      intros j Hj. apply (Hnc (S j)). lia.
Qed.

(** C2. If the loop reaches iteration [k] (no earlier estimate passed the
    convergence test, and [k] is below the cap) and the estimate
    [R_(k+1)] computed there exceeds the deadline, the result is [None]:
    nothing is assumed about the convergence test at iteration [k], which
    the deadline test precedes. *)
Theorem deadline_check_precedes_convergence task hp max_iterations k :
  (k < Z.to_nat max_iterations)%nat ->
  (forall j, (j < k)%nat ->
     ~ Qabs (iterate task hp (S j) - iterate task hp j) < epsilon) ->
  D task < iterate task hp (S k) ->
  compute_response_time task hp max_iterations = None.
Proof.
  intros Hk Hnc Hmiss. unfold compute_response_time.
  by apply (rta_loop_miss task hp k).
Qed.

Lemma deadline_check_precedes_convergence_witness :
  Qabs (iterate tight_task [tiny_hp] 1 - iterate tight_task [tiny_hp] 0)
    < epsilon
  /\ compute_response_time tight_task [tiny_hp] 1000 = None.
Proof.
  split; [vm_compute; reflexivity |].
  apply (deadline_check_precedes_convergence tight_task [tiny_hp] 1000 0).
  - vm_compute. lia.
  - intros j Hj. lia.
  - vm_compute. reflexivity.
Defined.


(** The iteration cap alone also breaks the second half, even for an
    appended task far above the tolerance: with three iterations allowed,
    [cap_hp] runs out of iterations while [cap_hp ++ [cap_e]] converges. *)
Lemma iteration_cap_breaks_monotonicity :
  rta_loop 3 cap_target cap_hp (C cap_target) = Exhausted
  /\ compute_response_time cap_target cap_hp 3 = None
  /\ (exists R',
        compute_response_time cap_target (cap_hp ++ [cap_e]) 3 = Some R'
        /\ R' == 39 # 32)
  /\ epsilon <= C cap_e.
Proof.
  split_and!.
  - vm_compute. reflexivity.
  - vm_compute. reflexivity.
  - eexists. split; vm_compute; reflexivity.
  - vm_compute. congruence.
Qed.






(** ** Stable sorting *)

Section Sorting.
Context {A : Type} (leb : A -> A -> bool).
Hypothesis leb_total : forall x y, leb x y = true \/ leb y x = true.
Hypothesis leb_trans :
  forall x y z, leb x y = true -> leb y z = true -> leb x z = true.

Lemma insert_by_perm x l : insert_by leb x l ≡ₚ x :: l.
Proof.
  induction l as [| y l IH]; simpl; [done |].
  destruct (leb x y); [done |]. rewrite IH. apply Permutation_swap.
Qed.

Lemma py_sorted_perm l : py_sorted leb l ≡ₚ l.
Proof.
  induction l as [| x l IH]; simpl; [done |].
  rewrite insert_by_perm. by rewrite IH.
Qed.

Lemma insert_by_sorted x l :
  StronglySorted (fun a b => leb a b = true) l ->
  StronglySorted (fun a b => leb a b = true) (insert_by leb x l).
Proof.
  induction 1 as [| y l Hs IH Hy]; simpl.
  - repeat constructor.
  - destruct (leb x y) eqn:Hxy.
    + constructor; [by constructor |].
      constructor; [done |].
      eapply Forall_impl; [exact Hy |]. intros z Hz. by eapply leb_trans.
    + constructor; [done |].
      rewrite insert_by_perm. constructor; [| done].
      destruct (leb_total x y); congruence.
Qed.

Lemma py_sorted_sorted l :
  StronglySorted (fun a b => leb a b = true) (py_sorted leb l).
Proof.
  induction l as [| x l IH]; simpl; [constructor | by apply insert_by_sorted].
Qed.

Lemma insert_by_stable k x l :
  List.filter (same_key leb k) (insert_by leb x l)
  = List.filter (same_key leb k) (x :: l).
Proof.
  induction l as [| y l IH]; [done |].
  cbn [insert_by]. destruct (leb x y) eqn:Hxy; [done |].
  cbn [List.filter] in *. rewrite IH.
  destruct (same_key leb k x) eqn:Hx, (same_key leb k y) eqn:Hy; try done.
  unfold same_key in *.
  apply andb_prop in Hx as [_ Hxk]. apply andb_prop in Hy as [Hky _].
  rewrite (leb_trans x k y Hxk Hky) in Hxy. done.
Qed.

Lemma py_sorted_stable k l :
  List.filter (same_key leb k) (py_sorted leb l) = List.filter (same_key leb k) l.
Proof.
  induction l as [| x l IH]; [done |].
  cbn [py_sorted foldr]. rewrite insert_by_stable.
  cbn [List.filter]. fold (py_sorted leb l). by rewrite IH.
Qed.
End Sorting.

Lemma period_le_total a b : period_le a b = true \/ period_le b a = true.
Proof.
  unfold period_le. rewrite !Qle_bool_iff.
  destruct (Qlt_le_dec (T b) (T a)); [right; lra | by left].
Qed.

Lemma period_le_trans a b c :
  period_le a b = true -> period_le b c = true -> period_le a c = true.
Proof. unfold period_le. rewrite !Qle_bool_iff. lra. Qed.

Lemma priority_key_le_total a b :
  priority_key_le a b = true \/ priority_key_le b a = true.
Proof.
  unfold priority_key_le. destruct (priority a), (priority b); auto.
  rewrite !Z.leb_le. lia.
Qed.

(** ** Task construction and Rate-Monotonic assignment *)

Lemma Qle_bool_false (x y : Q) : Qle_bool x y = false <-> y < x.
Proof.
  rewrite <- not_true_iff_false, Qle_bool_iff. split; [apply Qnot_le_lt | lra].
Qed.

(** Re-validating the fields of a valid task succeeds. *)
Lemma Task_init_valid t nm p :
  valid_task t ->
  Task_init (C t) (T t) (Some (D t)) nm p
  = Ok {| C := C t; T := T t; D := D t; name := nm; priority := p |}.
Proof.
  intros (HC & HT & HD & HCT & HDT & HCD). unfold Task_init.
  assert (Qle_bool (C t) 0 = false) as -> by (apply Qle_bool_false; lra).
  assert (Qle_bool (T t) 0 = false) as -> by (apply Qle_bool_false; lra).
  assert (Qle_bool (C t) (T t) = true) as -> by (by apply Qle_bool_iff).
  assert (Qle_bool (D t) 0 = false) as -> by (apply Qle_bool_false; lra).
  assert (Qle_bool (D t) (T t) = true) as -> by (by apply Qle_bool_iff).
  cbn. by assert (Qle_bool (C t) (D t) = true) as -> by (by apply Qle_bool_iff).
Qed.

(** A successful construction yields a valid task with the given fields. *)
Lemma Task_init_ok c t d nm p task :
  Task_init c t d nm p = Ok task ->
  valid_task task /\ C task = c /\ T task = t /\ D task = default t d
  /\ name task = nm /\ priority task = p.
Proof.
  unfold Task_init, valid_task.
  destruct (Qle_bool c 0) eqn:Hc; [done |].
  destruct (Qle_bool t 0) eqn:Ht; [done |].
  destruct (Qle_bool c t) eqn:Hct; [| done]. cbn [negb].
  apply Qle_bool_false in Hc, Ht. apply Qle_bool_iff in Hct.
  destruct d as [d0 |]; cbn.
  - destruct (Qle_bool d0 0) eqn:Hd; [done |].
    destruct (Qle_bool d0 t) eqn:Hdt; [| done]. cbn.
    destruct (Qle_bool c d0) eqn:Hcd; [| done]. cbn.
    apply Qle_bool_false in Hd. apply Qle_bool_iff in Hdt, Hcd.
    intros [= <-]. cbn. repeat split; done.
  - destruct (Qle_bool c t) eqn:Hcd; [| done]. cbn.
    intros [= <-]. cbn. repeat split; try done; lra.
Qed.

Lemma assign_from_valid l : forall i,
  Forall valid_task l ->
  assign_from i l = Ok (imap (fun k => rederive (i + Z.of_nat k)) l).
Proof.
  induction l as [| t l IH]; intros i Hl; [done |].
  apply Forall_cons in Hl as [Ht Hl].
  cbn [assign_from]. rewrite (Task_init_valid t _ _ Ht). cbn.
  rewrite (IH (i + 1)%Z Hl). cbn. f_equal. f_equal.
  - unfold rederive. by rewrite Z.add_0_r.
  - apply imap_ext. intros k x _. cbn. f_equal. lia.
Qed.

Lemma imap_rederive_lookup (l : list Task) (i : nat) (new : Task) :
  imap (fun k => rederive (Z.of_nat k)) l !! i = Some new ->
  exists old, l !! i = Some old /\ new = rederive (Z.of_nat i) old.
Proof.
  rewrite list_lookup_imap. destruct (l !! i) as [old |]; [| done].
  intros [= <-]. by exists old.
Qed.

(** Construction from valid tasks without priorities: the stored list is
    the period-sorted input, re-derived index by index. *)
Lemma TaskSet_init_unassigned l :
  Forall valid_task l -> Forall (fun t => priority t = None) l ->
  exists ts, TaskSet_init l = Ok ts
    /\ tasks ts = imap (fun k => rederive (Z.of_nat k)) (py_sorted period_le l).
Proof.
  intros Hv Hn. destruct l as [| t l]; [by eexists |].
  unfold TaskSet_init.
  assert (forallb has_priority (t :: l) = false) as ->.
  { apply Forall_cons in Hn as [Ht _]. cbn. unfold has_priority.
    by rewrite Ht. }
  assert (forallb (fun t => negb (has_priority t)) (t :: l) = true) as ->.
  { apply forallb_forall. intros x Hx%list_elem_of_In.
    rewrite Forall_forall in Hn. unfold has_priority.
    by rewrite (Hn x Hx). }
  unfold _assign_rate_monotonic_priorities. cbn [tasks].
  rewrite assign_from_valid.
  - cbn. eexists. split; [done |]. cbn. by apply imap_ext.
  - eapply Forall_forall. intros x Hx.
    rewrite (py_sorted_perm period_le (t :: l)) in Hx.
    rewrite Forall_forall in Hv. by apply Hv.
Qed.

Lemma StronglySorted_lookup {A} (R : A -> A -> Prop) (l : list A) i j x y :
  StronglySorted R l -> l !! i = Some x -> l !! j = Some y ->
  (i < j)%nat -> R x y.
Proof.
  intros Hs Hi Hj Hij. rewrite <- (take_drop j l) in Hs.
  apply (StronglySorted_app_1_elem_of _ _ _ _ _ Hs).
  - apply list_elem_of_lookup. exists i. by rewrite lookup_take_lt.
  - apply list_elem_of_lookup. exists 0%nat. by rewrite lookup_drop, Nat.add_0_r.
Qed.

Lemma StronglySorted_weaken {A} (R R' : A -> A -> Prop) (l : list A) :
  (forall a b, R a b -> R' a b) -> StronglySorted R l -> StronglySorted R' l.
Proof.
  intros HR. induction 1 as [| x l Hs IH Hx]; constructor; [done |].
  eapply Forall_impl; [exact Hx | auto].
Qed.

Lemma imap_rederive_priorities (l : list Task) :
  priority <$> imap (fun k => rederive (Z.of_nat k)) l
  = (fun k => Some (Z.of_nat k)) <$> seq 0 (length l).
Proof.
  apply list_eq. intros i.
  rewrite !list_lookup_fmap, list_lookup_imap.
  destruct (l !! i) as [x |] eqn:Hi; cbn.
  - apply lookup_lt_Some in Hi as Hlt. by rewrite lookup_seq_lt.
  - apply lookup_ge_None in Hi. by rewrite lookup_seq_ge.
Qed.

Lemma py_sorted_length {A} (leb : A -> A -> bool) l :
  length (py_sorted leb l) = length l.
Proof. apply Permutation_length, py_sorted_perm. Qed.

(** C4. Constructing a task set from valid tasks that carry no priority
    succeeds; the stored tasks are the input sorted by ascending period,
    tasks of equal period keeping their insertion order, each re-derived
    with its index as priority, so the priorities are 0, 1, ..., n-1 in
    that order; and a strictly shorter period means a strictly smaller
    priority number. *)
Theorem rate_monotonic_assignment (l : list Task) :
  Forall valid_task l -> Forall (fun t => priority t = None) l ->
  exists ts, TaskSet_init l = Ok ts
    /\ py_sorted period_le l ≡ₚ l
    /\ StronglySorted (fun a b => T a <= T b) (py_sorted period_le l)
    /\ (forall k, List.filter (same_key period_le k) (py_sorted period_le l)
                  = List.filter (same_key period_le k) l)
    /\ tasks ts
       = imap (fun i => rederive (Z.of_nat i)) (py_sorted period_le l)
    /\ priority <$> tasks ts
       = (fun i => Some (Z.of_nat i)) <$> seq 0 (length l)
    /\ (forall a b, a ∈ tasks ts -> b ∈ tasks ts -> T a < T b ->
                    priority_lt a b).
Proof.
  intros Hv Hn.
  destruct (TaskSet_init_unassigned l Hv Hn) as (ts & Hts & Htasks).
  assert (Hsorted : StronglySorted (fun a b => T a <= T b)
                      (py_sorted period_le l)).
  { eapply StronglySorted_weaken;
      [| apply (py_sorted_sorted period_le period_le_total period_le_trans)].
    intros a b. unfold period_le. by rewrite Qle_bool_iff. }
  exists ts. split_and!; try done.
  - apply py_sorted_perm.
  - intros k. apply py_sorted_stable, period_le_trans.
  - rewrite Htasks, imap_rederive_priorities. by rewrite py_sorted_length.
  - intros a b Ha Hb Hab. rewrite Htasks in Ha, Hb.
    apply list_elem_of_lookup in Ha as [i Hi], Hb as [j Hj].
    apply imap_rederive_lookup in Hi as (a0 & Hi & ->).
    apply imap_rederive_lookup in Hj as (b0 & Hj & ->).
    cbn in Hab. exists (Z.of_nat i), (Z.of_nat j).
    split; [done |]. split; [done |].
    destruct (decide (i < j)%nat) as [| Hge]; [lia | exfalso].
    destruct (decide (i = j)) as [-> | Hne].
    + rewrite Hi in Hj. injection Hj as ->. lra.
    + pose proof (StronglySorted_lookup _ _ j i b0 a0 Hsorted Hj Hi) as Hle.
      assert (T b0 <= T a0) by (apply Hle; lia). lra.
Qed.

Lemma rate_monotonic_assignment_witness :
  exists ts, TaskSet_init rm_example = Ok ts
    /\ (name <$> tasks ts) = ["τ3"; "τ1"; "τ2"]
    /\ (priority <$> tasks ts) = [Some 0%Z; Some 1%Z; Some 2%Z].
Proof.
  destruct (rate_monotonic_assignment rm_example)
    as (ts & Hts & _ & _ & _ & Htasks & _).
  - valid_tasks.
  - repeat constructor.
  - exists ts. split; [exact Hts |]. rewrite Htasks. split; reflexivity.
Defined.

(** C8, as stated, fails: a task set built from two tasks that both carry
    priority 0 is accepted, and its priorities are not pairwise distinct. *)
Lemma duplicate_priorities_accepted :
  exists t1 t2 ts,
    Task_init 1 4 None "a" (Some 0%Z) = Ok t1
    /\ Task_init 1 5 None "b" (Some 0%Z) = Ok t2
    /\ TaskSet_init [t1; t2] = Ok ts
    /\ priority <$> tasks ts = [Some 0%Z; Some 0%Z]
    /\ ~ NoDup (priority <$> tasks ts).
Proof.
  eexists _, _, _. split_and!; try reflexivity.
  cbn. intros Hnd. apply NoDup_cons in Hnd as [Hin _].
  apply Hin. constructor.
Qed.

(** C8, amended.  Priorities are pairwise distinct and non-negative when
    the task set assigns them itself (tasks given without priorities).  A
    list of tasks that all carry a priority is stored exactly as given:
    the constructor checks neither distinctness nor sign. *)
Theorem priorities_distinct_when_assigned (l : list Task) (ts : TaskSet) :
  Forall valid_task l ->
  TaskSet_init l = Ok ts ->
  (Forall (fun t => priority t = None) l ->
     NoDup (priority <$> tasks ts)
     /\ Forall (fun t => exists p, priority t = Some p /\ (0 <= p)%Z)
               (tasks ts))
  /\ (Forall (fun t => has_priority t = true) l ->
      ts = {| tasks := l; _sorted := false |}).
Proof.
  intros Hv Hts. split.
  - intros Hn.
    destruct (TaskSet_init_unassigned l Hv Hn) as (ts' & Hts' & Htasks).
    rewrite Hts in Hts'. injection Hts' as <-. split.
    + rewrite Htasks, imap_rederive_priorities.
      apply NoDup_fmap_2; [| apply NoDup_seq].
      intros i j [= Hij]. lia.
    + rewrite Htasks. apply Forall_forall. intros t Ht.
      apply list_elem_of_lookup in Ht as [i Hi].
      apply imap_rederive_lookup in Hi as (old & _ & ->).
      exists (Z.of_nat i). split; [done | lia].
  - intros Hp. destruct l as [| t l]; [by injection Hts as <- |].
    unfold TaskSet_init in Hts.
    assert (forallb has_priority (t :: l) = true) as Hall.
    { apply forallb_forall. intros x Hx%list_elem_of_In.
      rewrite Forall_forall in Hp. by apply Hp. }
    rewrite Hall in Hts. by injection Hts as <-.
Qed.

Lemma priorities_distinct_when_assigned_witness :
  exists ts, TaskSet_init rm_example = Ok ts
    /\ NoDup (priority <$> tasks ts).
Proof.
  destruct (TaskSet_init rm_example) as [ts | e] eqn:Hts; [| discriminate].
  exists ts. split; [reflexivity |].
  apply (priorities_distinct_when_assigned rm_example ts).
  - valid_tasks.
  - exact Hts.
  - repeat constructor.
Defined.

(** C9, as stated, fails: re-deriving an unnamed task changes its [name]
    field as well as its priority. *)
Lemma rederived_name_differs :
  exists old ts new,
    Task_init 1 4 None "" None = Ok old
    /\ TaskSet_init [old] = Ok ts
    /\ tasks ts = [new]
    /\ name old = "" /\ name new = "τ1"
    /\ name new <> name old.
Proof.
  eexists _, _, _. split_and!; try reflexivity. done.
Qed.

(** C9, amended.  Rate-Monotonic assignment builds, for the task at each
    index [i] of the period-sorted input, a new task with the same [C], [T]
    and [D], with priority [i], and with the same name when that name is
    not empty; an empty name is replaced by ["τ"] followed by [i + 1].
    Tasks are immutable values: the input list is not changed. *)
Theorem rederive_preserves_fields (l : list Task) (ts : TaskSet)
    (i : nat) (old : Task) :
  Forall valid_task l -> Forall (fun t => priority t = None) l ->
  TaskSet_init l = Ok ts ->
  py_sorted period_le l !! i = Some old ->
  exists new, tasks ts !! i = Some new
    /\ C new = C old /\ T new = T old /\ D new = D old
    /\ priority new = Some (Z.of_nat i)
    /\ name new = (if nonempty (name old) then name old
                   else "τ" +:+ str_of_int (Z.of_nat i + 1)).
Proof.
  intros Hv Hn Hts Hold.
  destruct (TaskSet_init_unassigned l Hv Hn) as (ts' & Hts' & Htasks).
  rewrite Hts in Hts'. injection Hts' as <-.
  exists (rederive (Z.of_nat i) old). split; [| done].
  by rewrite Htasks, list_lookup_imap, Hold.
Qed.

Lemma rederive_preserves_fields_witness :
  exists ts new, TaskSet_init rm_example = Ok ts
    /\ tasks ts !! 1%nat = Some new
    /\ C new = 1 /\ T new = 10 /\ D new = 10
    /\ priority new = Some 1%Z /\ name new = "τ1".
Proof.
  destruct (TaskSet_init rm_example) as [ts | e] eqn:Hts; [| discriminate].
  destruct (rederive_preserves_fields rm_example ts 1
              (task_of 1 10 10 "τ1" None))
    as (new & Hnew & HC & HT & HD & Hp & Hname).
  - valid_tasks.
  - repeat constructor.
  - exact Hts.
  - reflexivity.
  - exists ts, new. repeat split; done.
Defined.

(** ** analyze_taskset *)

Lemma get_sorted_tasks_perm ts l ts' :
  get_sorted_tasks ts = (l, ts') -> l ≡ₚ tasks ts.
Proof.
  unfold get_sorted_tasks. destruct (_sorted ts); intros [= <- <-]; [done |].
  apply py_sorted_perm.
Qed.

Lemma get_sorted_tasks_cached ts l ts' :
  get_sorted_tasks ts = (l, ts') -> get_sorted_tasks ts' = (l, ts').
Proof.
  unfold get_sorted_tasks. destruct (_sorted ts) eqn:Hs; intros [= <- <-].
  - by rewrite Hs.
  - done.
Qed.

Lemma get_higher_priority_tasks_sorted ts l ts' task :
  get_sorted_tasks ts = (l, ts') -> has_priority task = true ->
  get_higher_priority_tasks ts task = Ok (hp_subset l task, ts').
Proof.
  unfold get_higher_priority_tasks, hp_subset, has_priority.
  intros -> Hp. by destruct (priority task).
Qed.

Lemma analyze_loop_spec sorted ts' l : forall d b,
  get_sorted_tasks ts' = (sorted, ts') ->
  Forall (fun t => has_priority t = true) l ->
  analyze_loop l ts' d b
  = Ok (b && forallb (has_response sorted) l, record_all sorted l d, ts').
Proof.
  intros d b Hs Hl. revert d b.
  induction Hl as [| t l Ht Hl IH]; intros d b; cbn [analyze_loop].
  - by rewrite andb_true_r.
  - rewrite (get_higher_priority_tasks_sorted ts' sorted ts' t Hs Ht). cbn.
    rewrite IH. unfold has_response at 2. fold (response_of sorted t).
    destruct (response_of sorted t) as [R |]; cbn; [done |].
    by rewrite andb_false_r.
Qed.

Lemma record_all_snoc sorted l t d :
  record_all sorted (l ++ [t]) d
  = <[task_key t := response_of sorted t]> (record_all sorted l d).
Proof. unfold record_all. by rewrite foldl_app. Qed.


Lemma record_all_origin sorted l k v :
  record_all sorted l ∅ !! k = Some v ->
  exists t, t ∈ l /\ task_key t = k /\ v = response_of sorted t.
Proof.
  induction l as [| x l IH] using rev_ind; [done |].
  rewrite record_all_snoc.
  destruct (decide (task_key x = k)) as [<- | Hne].
  - rewrite lookup_insert_eq. intros [= <-].
    exists x. split; [| done]. apply elem_of_app. right. constructor.
  - rewrite lookup_insert_ne by done. intros (t & Ht & Hk & Hv)%IH.
    exists t. split; [| done]. apply elem_of_app. by left.
Qed.





(** ** uunifast *)

(** C6, as stated, fails in its floating-point half.  On binary64,
    [uunifast(3, 1e12, 49)] draws [0x1.11f4eeb04c018p-4] and
    [0x1.a7291ff77718cp-2] and returns three values whose float sum is
    [2 ^ (-13)], about [1.2e-4], below [u_total]; their exact sum, too, is
    further than [1e-6] from [u_total], whatever the summation order. *)
Lemma uunifast_binary64_sum_off :
  exists us,
    @uunifast_binary64 seed49_prng sqrt_pow 3 1e12 (Some 49%Z) = Ok us
    /\ us = [0x1.593b756d0cf70p+39%float; 0x1.1aa67fb755268p+37%float;
             0x1.8e21a628edfabp+36%float]
    /\ PrimFloat.sub (py_sum_binary64 us) 1e12 = (-0x1p-13)%float
    /\ Q_of_float 1e12 == 1000000000000
    /\ 1 # 1000000 < Qabs (py_sum (Q_of_float <$> us) - 1000000000000).
Proof.
  eexists. split; [vm_compute; reflexivity |].
  split; [reflexivity |]. split; [vm_compute; reflexivity |].
  split; vm_compute; reflexivity.
Qed.

Lemma py_sum_snoc xs x : py_sum (xs ++ [x]) = py_sum xs + x.
Proof. unfold py_sum. by rewrite fold_left_app. Qed.

Section Generator.
Context `{PRNG} `{FloatMath}.

(** [random()] draws from [[0, 1)], and a power of such a draw with a
    positive exponent stays in [[0, 1]]. *)
Hypothesis random_unit : forall g, 0 <= (random g).1 < 1.
Hypothesis pow_unit :
  forall x y, 0 <= x < 1 -> 0 < y -> 0 <= pow x y <= 1.

Lemma uunifast_loop_spec count : forall n i g sum_u us,
  (i + Z.of_nat count = n)%Z ->
  0 <= sum_u -> Forall (fun x => 0 <= x) us ->
  let '(us', s') := uunifast_loop count n i g sum_u us in
  length us' = (length us + count)%nat
  /\ Forall (fun x => 0 <= x) us'
  /\ 0 <= s'
  /\ py_sum us' + s' == py_sum us + sum_u.
Proof.
  induction count as [| count IH]; intros n i g sum_u us Hi Hs Hus;
    cbn [uunifast_loop].
  - rewrite Nat.add_0_r. repeat split; try done.
  - pose proof (random_unit g) as Hx.
    destruct (random g) as [x g'] eqn:Hg. cbn [fst] in Hx.
    assert (Hexp : 0 < 1 / inject_Z (n - i)).
    { apply Qdiv_pos; [lra |]. change 0 with (inject_Z 0).
      rewrite <- Zlt_Qlt. lia. }
    pose proof (pow_unit x _ Hx Hexp) as [Hp0 Hp1].
    set (f := pow x (1 / inject_Z (n - i))) in *.
    assert (Hn0 : 0 <= sum_u * f) by (by apply Qmult_le_0_compat).
    assert (Hn1 : sum_u * f <= sum_u).
    { apply Qle_trans with (sum_u * 1); [| lra].
      rewrite !(Qmult_comm sum_u). by apply Qmult_le_compat_r. }
    specialize (IH n (i + 1)%Z g' (sum_u * f) (us ++ [sum_u - sum_u * f])).
    destruct (uunifast_loop _ _ _ _ _ _) as [us' s'].
    destruct IH as (Hlen & Hnn & Hs' & Hsum); [lia | done | |].
    { apply Forall_app. split; [done |]. constructor; [lra | done]. }
    rewrite length_app in Hlen. cbn in Hlen.
    rewrite py_sum_snoc in Hsum.
    repeat split; try done; [lia | lra].
Qed.

(** C6, amended.  For [n > 0] and [u_total >= 0], whatever the seed,
    [uunifast] returns exactly [n] utilizations, none of them negative,
    whose sum is [u_total] in exact arithmetic; no tolerance is claimed for
    the floating-point sum. *)
Theorem uunifast_sums_to_total (n : Z) (u_total : Q) (seed : option Z) :
  (0 < n)%Z -> 0 <= u_total ->
  exists us, uunifast n u_total seed = Ok us
    /\ length us = Z.to_nat n
    /\ Forall (fun x => 0 <= x) us
    /\ py_sum us == u_total.
Proof.
  intros Hn Hu. unfold uunifast.
  assert ((n <=? 0)%Z = false) as -> by lia.
  assert (Qle_bool 0 u_total = true) as -> by (by apply Qle_bool_iff).
  cbn [negb].
  pose proof (uunifast_loop_spec (Z.to_nat (n - 1)) n 1 (Random seed)
                u_total []) as Hloop.
  destruct (uunifast_loop _ _ _ _ _ _) as [us s].
  destruct Hloop as (Hlen & Hnn & Hs & Hsum); [lia | done | done |].
  exists (us ++ [s]). split; [done |]. split_and!.
  - rewrite length_app, Hlen. cbn. lia.
  - apply Forall_app. split; [done |]. by constructor.
  - rewrite py_sum_snoc, Hsum. unfold py_sum. cbn. lra.
Qed.
End Generator.

Lemma uunifast_sums_to_total_witness :
  exists us,
    @uunifast counter_prng coarse_math 2 (7 # 10) (Some 42%Z) = Ok us
    /\ length us = 2%nat /\ py_sum us == 7 # 10.
Proof.
  destruct (@uunifast_sums_to_total counter_prng coarse_math)
    with (n := 2%Z) (u_total := 7 # 10) (seed := Some 42%Z)
    as (us & Hus & Hlen & _ & Hsum).
  - intros g. cbn. split; [done |].
    unfold Qlt. cbn. lia.
  - intros x y [Hx0 Hx1] _. cbn. split; lra.
  - lia.
  - done.
  - exists us. by repeat split.
Defined.

(** ** Construction-time validation *)

(** C7, as stated, fails: an invalid task, a mixed task set and an invalid
    generator argument all raise the same class of exception. *)
Lemma error_kinds_coincide :
  exists e1 e2 e3,
    Task_init 11 10 None "" None = Raise e1
    /\ TaskSet_init mixed_example = Raise e2
    /\ @uunifast counter_prng coarse_math 0 (1 # 2) (Some 42%Z) = Raise e3
    /\ exc_class e1 = "ValueError"
    /\ exc_class e2 = "ValueError"
    /\ exc_class e3 = "ValueError".
Proof. eexists _, _, _. repeat split; reflexivity. Qed.

Lemma Qle_bool_spec (x y : Q) :
  (Qle_bool x y = true /\ x <= y) \/ (Qle_bool x y = false /\ y < x).
Proof.
  destruct (Qle_bool x y) eqn:Hxy.
  - left. split; [done | by apply Qle_bool_iff].
  - right. split; [done | by apply Qle_bool_false].
Qed.

Lemma TaskSet_init_mixed l a b :
  a ∈ l -> b ∈ l -> has_priority a = true -> has_priority b = false ->
  TaskSet_init l
  = Raise (ValueError
      [Text "Either all tasks must have priorities set, or none should."]).
Proof.
  intros Ha Hb Hpa Hpb. unfold TaskSet_init.
  destruct l as [| t l]; [by apply elem_of_nil in Ha |].
  assert (forallb has_priority (t :: l) = false) as ->.
  { apply not_true_iff_false. rewrite forallb_forall. intros Hall.
    apply list_elem_of_In, Hall in Hb. congruence. }
  assert (forallb (fun t => negb (has_priority t)) (t :: l) = false) as ->.
  { apply not_true_iff_false. rewrite forallb_forall. intros Hall.
    apply list_elem_of_In, Hall in Ha. rewrite Hpa in Ha. done. }
  done.
Qed.



(** A failing check of [Task.__post_init__] raises a [ValueError] whose
    message starts with [Task <name>]. *)
Lemma Task_init_check_fails c t d nm p :
  task_check_fails c t d ->
  exists rest,
    Task_init c t d nm p
    = Raise (ValueError (Text "Task " :: Text nm :: rest)).
Proof.
  intros Hbad. unfold Task_init.
  destruct (Qle_bool_spec c 0) as [[-> _] | [-> Hc]]; [by eexists |].
  destruct (Qle_bool_spec t 0) as [[-> _] | [-> Ht]]; [by eexists |].
  destruct (Qle_bool_spec c t) as [[-> Hct] | [-> _]]; [| by eexists].
  cbn [negb]. destruct d as [d0 |]; cbn.
  - destruct (Qle_bool_spec d0 0) as [[-> _] | [-> Hd]]; [by eexists |].
    destruct (Qle_bool_spec d0 t) as [[-> Hdt] | [-> _]]; [| by eexists].
    cbn. destruct (Qle_bool_spec c d0) as [[-> Hcd] | [-> _]]; [| by eexists].
    exfalso. unfold task_check_fails in Hbad. lra.
  - exfalso. unfold task_check_fails in Hbad. lra.
Qed.

Lemma uunifast_check_fails `{PRNG} `{FloatMath} n u_total seed :
  (n <= 0)%Z \/ u_total < 0 ->
  exists s, uunifast n u_total seed = Raise (ValueError [Text s])
    /\ s ∈ generator_messages.
Proof.
  intros Hbad. unfold uunifast, generator_messages.
  destruct (n <=? 0)%Z eqn:Hn.
  { eexists. split; [done |]. repeat constructor. }
  destruct (Qle_bool_spec 0 u_total) as [[-> Hu] | [-> _]].
  - exfalso. destruct Hbad; [lia | lra].
  - eexists. split; [done |]. repeat constructor.
Qed.

Lemma generate_taskset_check_fails `{PRNG} `{FloatMath} n u pmin pmax dmin
    dmax seed :
  generator_check_fails n u pmin pmax dmin dmax ->
  exists s,
    generate_taskset n u pmin pmax dmin dmax seed = Raise (ValueError [Text s])
    /\ s ∈ generator_messages.
Proof.
  intros Hbad. unfold generate_taskset.
  destruct (Qle_bool_spec pmin 0) as [[-> _] | [-> Hp1]].
  { eexists. split; [done |]. unfold generator_messages. repeat constructor. }
  destruct (Qle_bool_spec pmax 0) as [[-> _] | [-> Hp2]].
  { eexists. split; [done |]. unfold generator_messages. repeat constructor. }
  destruct (Qle_bool_spec pmin pmax) as [[-> Hp3] | [-> _]].
  2: { eexists. split; [done |]. unfold generator_messages. repeat constructor. }
  cbn. destruct (Qle_bool_spec dmin 0) as [[-> _] | [-> Hd1]].
  { eexists. split; [done |]. unfold generator_messages. repeat constructor. }
  destruct (Qle_bool_spec dmin dmax) as [[-> Hd2] | [-> _]].
  2: { eexists. split; [done |]. unfold generator_messages. repeat constructor. }
  cbn. destruct (Qle_bool_spec dmax 1) as [[-> Hd3] | [-> _]].
  2: { eexists. split; [done |]. unfold generator_messages. repeat constructor. }
  cbn.
  assert (Hu : (n <= 0)%Z \/ u < 0).
  { unfold generator_check_fails in Hbad.
    destruct Hbad as [? | [? | [? | [? | [? | [? | Hbad]]]]]];
      [lra | lra | lra | lra | lra | lra | done]. }
  destruct (uunifast_check_fails n u seed Hu) as (s & -> & Hs).
  by exists s.
Qed.

Lemma render_task_message float_repr nm rest :
  render float_repr (Text "Task " :: Text nm :: rest)
  = "Task " +:+ (nm +:+ render float_repr rest).
Proof. reflexivity. Qed.

Lemma append_empty_r (s : string) : s +:+ "" = s.
Proof.
  induction s as [| a s IH]; [done |].
  change (String a (s +:+ "") = String a s). by rewrite IH.
Qed.

Lemma render_text float_repr s : render float_repr [Text s] = s.
Proof. cbn. apply append_empty_r. Qed.

(** C7, amended.  Task parameters on which a test of [__post_init__]
    holds, a task set that mixes tasks with and without priorities, and
    generator arguments on which a test of [generate_taskset] or [uunifast]
    holds ([n <= 0], [u_total < 0], a non-positive or inverted period or
    deadline-factor range, a deadline factor above [1]) each make the call
    raise, and what is raised is in each case a [ValueError].  The three
    validations differ in the message only: a task message starts with
    [Task <name>], the task-set message is one fixed text, a generator
    message is one of five fixed texts, and the rendered messages of
    different validations are never equal. *)
Theorem validation_failures_raise_ValueError :
  (forall c t d nm p,
     task_check_fails c t d ->
     exists rest,
       Task_init c t d nm p
       = Raise (ValueError (Text "Task " :: Text nm :: rest)))
  /\ (forall l a b,
        a ∈ l -> b ∈ l -> has_priority a = true -> has_priority b = false ->
        TaskSet_init l = Raise (ValueError [Text taskset_message]))
  /\ (forall (G : PRNG) (M : FloatMath) n u_total seed,
        (n <= 0)%Z \/ u_total < 0 ->
        exists s, uunifast n u_total seed = Raise (ValueError [Text s])
          /\ s ∈ generator_messages)
  /\ (forall (G : PRNG) (M : FloatMath) n u pmin pmax dmin dmax seed,
        generator_check_fails n u pmin pmax dmin dmax ->
        exists s,
          generate_taskset n u pmin pmax dmin dmax seed
          = Raise (ValueError [Text s])
          /\ s ∈ generator_messages)
  /\ (forall float_repr nm rest s,
        s = taskset_message \/ s ∈ generator_messages ->
        render float_repr (Text "Task " :: Text nm :: rest)
        <> render float_repr [Text s])
  /\ (forall float_repr s,
        s ∈ generator_messages ->
        render float_repr [Text taskset_message]
        <> render float_repr [Text s]).
Proof.
  split_and!.
  - apply Task_init_check_fails.
  - apply TaskSet_init_mixed.
  - intros G M. apply uunifast_check_fails.
  - intros G M. apply generate_taskset_check_fails.
  - intros float_repr nm rest s Hs.
    rewrite render_task_message, render_text.
    unfold taskset_message, generator_messages in Hs.
    rewrite !elem_of_cons, elem_of_nil in Hs.
    destruct Hs as [-> | [-> | [-> | [-> | [-> | [-> | []]]]]]];
      cbn; intros [=].
  - intros float_repr s Hs. rewrite !render_text.
    unfold taskset_message, generator_messages in *.
    rewrite !elem_of_cons, elem_of_nil in Hs.
    destruct Hs as [-> | [-> | [-> | [-> | [-> | []]]]]]; intros [=].
Qed.

Lemma validation_failures_raise_ValueError_witness :
  (exists rest,
     Task_init 11 10 None "a" None
     = Raise (ValueError (Text "Task " :: Text "a" :: rest)))
  /\ TaskSet_init mixed_example = Raise (ValueError [Text taskset_message])
  /\ (exists s,
        @generate_taskset counter_prng coarse_math 5 (1 # 2) 100 10 1 1 None
        = Raise (ValueError [Text s])
        /\ s ∈ generator_messages)
  /\ render (fun _ => "11.0") [Text "Task "; Text "a";
                                Text ": C must be positive, got ";
                                FloatRepr 11]
     <> render (fun _ => "11.0") [Text taskset_message].
Proof.
  destruct validation_failures_raise_ValueError
    as (HT & HS & _ & HG & HD & _).
  split_and!.
  - apply HT. unfold task_check_fails. lra.
  - apply (HS mixed_example (task_of 1 4 4 "a" (Some 0%Z))
             (task_of 1 5 5 "b" None)); [| | done | done].
    + constructor.
    + constructor. constructor.
  - apply HG. unfold generator_check_fails. lra.
  - apply HD. by left.
Defined.

(* ===================================================================== *)
(** * Part IV: further properties of the code                              *)
(* ===================================================================== *)

(** ** Task *)

(** X1. The constructor succeeds exactly when none of the tests of
    [__post_init__] holds ([C <= 0], [T <= 0], [C > T] and, for a given
    deadline, [D <= 0], [D > T], [C > D]), and then stores the parameters
    unchanged, [D] being [T] when no deadline was given. *)
Theorem Task_init_accepts_exactly_valid c t d nm p task :
  Task_init c t d nm p = Ok task
  <-> ~ task_check_fails c t d
      /\ task = {| C := c; T := t; D := default t d; name := nm;
                   priority := p |}.
Proof.
  split.
  - intros Hok. split.
    + intros Hbad.
      destruct (Task_init_check_fails c t d nm p Hbad) as [rest Hr].
      congruence.
    + destruct (Task_init_ok _ _ _ _ _ _ Hok) as (_ & HC & HT & HD & Hn & Hp).
      destruct task; cbn in *. by subst.
  - intros [Hp ->]. unfold task_check_fails in Hp. unfold Task_init.
    destruct (Qle_bool_spec c 0) as [[_ Hc] | [-> Hc]]; [tauto |].
    destruct (Qle_bool_spec t 0) as [[_ Ht] | [-> Ht]]; [tauto |].
    destruct (Qle_bool_spec c t) as [[Hct' Hct] | [_ Hct]]; [| tauto].
    rewrite Hct'. cbn [negb]. destruct d as [d0 |]; cbn.
    + destruct (Qle_bool_spec d0 0) as [[_ Hd] | [-> Hd]]; [tauto |].
      destruct (Qle_bool_spec d0 t) as [[-> Hdt] | [_ Hdt]]; [| tauto].
      cbn. destruct (Qle_bool_spec c d0) as [[-> Hcd] | [_ Hcd]]; [done |].
      tauto.
    + by rewrite Hct'.
Qed.

Lemma Task_init_accepts_exactly_valid_witness :
  Task_init 2 10 None "a" None = Ok (task_of 2 10 10 "a" None).
Proof.
  apply Task_init_accepts_exactly_valid. split; [| reflexivity].
  unfold task_check_fails. lra.
Defined.

(** X2. The utilization of a task with [0 < C <= T] lies in [[0, 1]]. *)
Theorem utilization_in_unit_interval task :
  0 < C task -> C task <= T task -> 0 <= utilization task <= 1.
Proof.
  intros HC HCT. unfold utilization.
  assert (HT : 0 < T task) by lra. split.
  - apply Qlt_le_weak. by apply Qdiv_pos.
  - apply Qle_shift_div_r; [done | lra].
Qed.

Lemma utilization_in_unit_interval_witness :
  0 <= utilization (task_of 2 10 10 "τ1" None) <= 1.
Proof.
  apply (utilization_in_unit_interval (task_of 2 10 10 "τ1" None));
    cbn; lra.
Defined.

(** ** TaskSet *)

Lemma forallb_false_witness {A} (f : A -> bool) (l : list A) :
  forallb f l = false -> exists x, x ∈ l /\ f x = false.
Proof.
  induction l as [| x l IH]; cbn; [done |].
  destruct (f x) eqn:Hx; cbn.
  - intros (y & Hy & Hfy)%IH. exists y. split; [by constructor | done].
  - intros _. exists x. split; [constructor | done].
Qed.

(** What a successful run of the assignment loop built. *)
Lemma assign_from_inv l : forall i new,
  assign_from i l = Ok new ->
  timing <$> new = timing <$> l
  /\ Forall valid_task new
  /\ (forall k t, new !! k = Some t -> priority t = Some (i + Z.of_nat k)%Z).
Proof.
  induction l as [| x l IH]; intros i new; cbn [assign_from].
  - intros [= <-]. repeat split; [constructor | done].
  - destruct (Task_init _ _ _ _ _) as [new_task | e] eqn:Hinit; [| done].
    cbn. destruct (assign_from (i + 1) l) as [new_tasks | e] eqn:Hrest;
      [| done].
    cbn. intros [= <-].
    destruct (IH _ _ Hrest) as (Htim & Hval & Hprio).
    destruct (Task_init_ok _ _ _ _ _ _ Hinit)
      as (Hv & HC & HT & HD & _ & Hp).
    split_and!.
    + cbn. rewrite Htim. f_equal. unfold timing. cbn in HD. congruence.
    + by constructor.
    + intros [| k] t; cbn.
      * intros [= <-]. rewrite Hp. f_equal. lia.
      * intros Hk%Hprio. rewrite Hk. f_equal. lia.
Qed.

Lemma TaskSet_init_cons t l :
  TaskSet_init (t :: l)
  = if forallb has_priority (t :: l) then
      Ok {| tasks := t :: l; _sorted := false |}
    else if forallb (fun t => negb (has_priority t)) (t :: l) then
      _assign_rate_monotonic_priorities {| tasks := t :: l; _sorted := false |}
    else
      Raise (ValueError
        [Text "Either all tasks must have priorities set, or none should."]).
Proof. reflexivity. Qed.

Lemma TaskSet_init_cases l ts :
  TaskSet_init l = Ok ts ->
  (Forall (fun t => has_priority t = true) l
   /\ ts = {| tasks := l; _sorted := false |})
  \/ (exists new, assign_from 0 (py_sorted period_le l) = Ok new
      /\ ts = {| tasks := new; _sorted := true |}).
Proof.
  destruct l as [| t l].
  - intros [= <-]. left. by split.
  - rewrite TaskSet_init_cons.
    destruct (forallb has_priority (t :: l)) eqn:Hall.
    + intros [= <-]. left. split; [| done].
      apply Forall_forall. intros x Hx%list_elem_of_In.
      rewrite forallb_forall in Hall. by apply Hall.
    + destruct (forallb (fun t => negb (has_priority t)) (t :: l));
        [| intros [=]].
      unfold _assign_rate_monotonic_priorities. cbn [tasks].
      destruct (assign_from _ _) as [new | e]; [| intros [=]].
      cbn. intros [= <-]. right. by exists new.
Qed.

(** X3. For valid tasks, constructing a task set fails exactly when some
    task has a priority and some task has none. *)
Theorem TaskSet_init_fails_iff_mixed (l : list Task) :
  Forall valid_task l ->
  (is_ok (TaskSet_init l) = false <-> mixed_priorities l).
Proof.
  intros Hv. split.
  - destruct l as [| t l]; [done |]. rewrite TaskSet_init_cons.
    destruct (forallb has_priority (t :: l)) eqn:Hall; [done |].
    destruct (forallb (fun t => negb (has_priority t)) (t :: l)) eqn:Hnone.
    + assert (Hn : Forall (fun t => priority t = None) (t :: l)).
      { apply Forall_forall. intros x Hx%list_elem_of_In.
        rewrite forallb_forall in Hnone. apply Hnone in Hx.
        unfold has_priority in Hx. by destruct (priority x). }
      destruct (TaskSet_init_unassigned _ Hv Hn) as (ts & Hts & _).
      rewrite TaskSet_init_cons, Hall, Hnone in Hts.
      by rewrite Hts.
    + intros _.
      apply forallb_false_witness in Hall as (b & Hb & Hpb).
      apply forallb_false_witness in Hnone as (a & Ha & Hpa).
      exists a, b. repeat split; try done.
      by destruct (has_priority a).
  - intros (a & b & Ha & Hb & Hpa & Hpb).
    by rewrite (TaskSet_init_mixed l a b Ha Hb Hpa Hpb).
Qed.

Lemma TaskSet_init_fails_iff_mixed_witness :
  is_ok (TaskSet_init mixed_example) = false <-> mixed_priorities mixed_example.
Proof.
  apply (TaskSet_init_fails_iff_mixed mixed_example). valid_tasks.
Defined.

Lemma TaskSet_init_timing (l : list Task) (ts : TaskSet) :
  TaskSet_init l = Ok ts -> timing <$> tasks ts ≡ₚ timing <$> l.
Proof.
  intros Hts. destruct (TaskSet_init_cases l ts Hts)
    as [[_ ->] | (new & Hnew & ->)]; [done |].
  cbn. destruct (assign_from_inv _ _ _ Hnew) as (-> & _).
  by rewrite (py_sorted_perm period_le l).
Qed.

Lemma TaskSet_init_priorities (l : list Task) (ts : TaskSet) :
  TaskSet_init l = Ok ts ->
  Forall (fun t => has_priority t = true) (tasks ts).
Proof.
  intros Hts. destruct (TaskSet_init_cases l ts Hts)
    as [[Hp ->] | (new & Hnew & ->)]; [done |].
  cbn. destruct (assign_from_inv _ _ _ Hnew) as (_ & _ & Hprio).
  apply Forall_forall. intros t [k Hk]%list_elem_of_lookup.
  unfold has_priority. by rewrite (Hprio k t Hk).
Qed.

Lemma TaskSet_init_valid (l : list Task) (ts : TaskSet) :
  Forall valid_task l -> TaskSet_init l = Ok ts ->
  Forall valid_task (tasks ts).
Proof.
  intros Hv Hts. destruct (TaskSet_init_cases l ts Hts)
    as [[_ ->] | (new & Hnew & ->)]; [done |].
  by destruct (assign_from_inv _ _ _ Hnew) as (_ & ? & _).
Qed.

(** X4. Construction keeps the tasks' timing parameters up to order, and so
    their number. *)
Theorem TaskSet_init_keeps_timing (l : list Task) (ts : TaskSet) :
  TaskSet_init l = Ok ts ->
  timing <$> tasks ts ≡ₚ timing <$> l
  /\ TaskSet_len ts = Z.of_nat (length l).
Proof.
  intros Hts. pose proof (TaskSet_init_timing l ts Hts) as Hperm.
  split; [done |]. unfold TaskSet_len. f_equal.
  apply Permutation_length in Hperm. by rewrite !length_fmap in Hperm.
Qed.

Lemma TaskSet_init_keeps_timing_witness :
  exists ts, TaskSet_init rm_example = Ok ts /\ TaskSet_len ts = 3%Z.
Proof.
  destruct (TaskSet_init rm_example) as [ts | e] eqn:Hts; [| discriminate].
  exists ts. split; [reflexivity |].
  apply (TaskSet_init_keeps_timing rm_example ts Hts).
Defined.

(** X5. A task set built from the task list of a constructed task set
    keeps that list as it is: priorities are not assigned a second time. *)
Theorem TaskSet_init_again (l : list Task) (ts : TaskSet) :
  TaskSet_init l = Ok ts ->
  TaskSet_init (tasks ts) = Ok {| tasks := tasks ts; _sorted := false |}.
Proof.
  intros Hts. pose proof (TaskSet_init_priorities l ts Hts) as Hp.
  destruct (tasks ts) as [| t rest] eqn:Htasks; [done |].
  rewrite TaskSet_init_cons.
  assert (forallb has_priority (t :: rest) = true) as ->; [| done].
  apply forallb_forall. intros x Hx%list_elem_of_In.
  rewrite Forall_forall in Hp. by apply Hp.
Qed.

Lemma TaskSet_init_again_witness :
  TaskSet_init rm_example_assigned
  = Ok {| tasks := rm_example_assigned; _sorted := false |}.
Proof.
  apply (TaskSet_init_again rm_example
           {| tasks := rm_example_assigned; _sorted := true |}).
  reflexivity.
Defined.

Lemma fold_left_Qplus_acc {A} (f : A -> Q) (l : list A) (a : Q) :
  fold_left (fun acc x => acc + f x) l a
  == a + foldr (fun x acc => f x + acc) 0 l.
Proof.
  revert a. induction l as [| x l IH]; intros a; cbn; [lra |].
  rewrite IH. lra.
Qed.

Lemma total_utilization_sum (ts : TaskSet) :
  total_utilization ts == sum_utilization (tasks ts).
Proof.
  unfold total_utilization, sum_utilization.
  rewrite (fold_left_Qplus_acc utilization). lra.
Qed.

Lemma sum_utilization_bounds (l : list Task) :
  Forall valid_task l ->
  0 <= sum_utilization l <= inject_Z (Z.of_nat (length l)).
Proof.
  induction 1 as [| t l Ht Hl IH]; cbn [sum_utilization foldr length].
  - change (inject_Z (Z.of_nat 0)) with 0. lra.
  - fold (sum_utilization l). destruct IH as [IH0 IH1].
    assert (0 < utilization t <= 1) as [Hu0 Hu1].
    { destruct Ht as (HC & HT & _ & HCT & _). unfold utilization. split.
      - by apply Qdiv_pos.
      - apply Qle_shift_div_r; [done | lra]. }
    rewrite Nat2Z.inj_succ, <- Z.add_1_r, inject_Z_plus.
    change (inject_Z 1) with 1. split; lra.
Qed.

(** X7. The total utilization of [n] valid tasks lies between [0] and [n];
    it is not capped at [1]. *)
Theorem total_utilization_bounds (ts : TaskSet) :
  Forall valid_task (tasks ts) ->
  0 <= total_utilization ts <= inject_Z (TaskSet_len ts).
Proof.
  intros Hv. rewrite total_utilization_sum. unfold TaskSet_len.
  by apply sum_utilization_bounds.
Qed.

Lemma total_utilization_bounds_witness :
  0 <= total_utilization {| tasks := rm_example_assigned; _sorted := true |}
  <= 3.
Proof.
  apply (total_utilization_bounds
           {| tasks := rm_example_assigned; _sorted := true |}).
  valid_tasks.
Defined.

Lemma priority_key_le_trans a b c :
  priority_key_le a b = true -> priority_key_le b c = true ->
  priority_key_le a c = true.
Proof.
  unfold priority_key_le.
  destruct (priority a), (priority b), (priority c); try done.
  rewrite !Z.leb_le. lia.
Qed.

Lemma StronglySorted_of_lookup {A} (R : A -> A -> Prop) (l : list A) :
  (forall i j x y, (i < j)%nat -> l !! i = Some x -> l !! j = Some y ->
                   R x y) ->
  StronglySorted R l.
Proof.
  induction l as [| a l IH]; intros H; constructor.
  - apply IH. intros i j x y Hij Hi Hj. by apply (H (S i) (S j)); [lia | |].
  - apply Forall_forall. intros y [j Hj]%list_elem_of_lookup.
    by apply (H 0%nat (S j)); [lia | |].
Qed.

Lemma get_sorted_tasks_constructed (l : list Task) (ts : TaskSet) :
  TaskSet_init l = Ok ts ->
  exists s ts', get_sorted_tasks ts = (s, ts')
    /\ s ≡ₚ tasks ts
    /\ StronglySorted (fun a b => priority_key_le a b = true) s
    /\ tasks ts' = s /\ _sorted ts' = true.
Proof.
  intros Hts. destruct (TaskSet_init_cases l ts Hts)
    as [[_ ->] | (new & Hnew & ->)]; unfold get_sorted_tasks; cbn.
  - eexists _, _. split; [done |]. split_and!; try done.
    + apply py_sorted_perm.
    + apply py_sorted_sorted;
        [apply priority_key_le_total | apply priority_key_le_trans].
  - eexists _, _. split; [done |]. split_and!; try done.
    destruct (assign_from_inv _ _ _ Hnew) as (_ & _ & Hprio).
    apply StronglySorted_of_lookup. intros i j x y Hij Hi Hj.
    unfold priority_key_le. rewrite (Hprio i x Hi), (Hprio j y Hj).
    apply Z.leb_le. lia.
Qed.

(** X8. On a constructed task set, [get_sorted_tasks] returns the tasks in
    ascending order of priority number (highest priority first), tasks of
    equal priority keeping their stored order; the list is a reordering of
    the stored tasks, it is stored back, and the object is marked
    sorted. *)
Theorem get_sorted_tasks_ascending (l : list Task) (ts : TaskSet) :
  TaskSet_init l = Ok ts ->
  exists s ts', get_sorted_tasks ts = (s, ts')
    /\ s ≡ₚ tasks ts
    /\ StronglySorted (fun a b => priority_key_le a b = true) s
    /\ (forall k, List.filter (same_key priority_key_le k) s
                  = List.filter (same_key priority_key_le k) (tasks ts))
    /\ tasks ts' = s /\ _sorted ts' = true.
Proof.
  intros Hts.
  destruct (get_sorted_tasks_constructed l ts Hts)
    as (s & ts' & Hs & Hperm & Hsorted & Hstored & Hflag).
  exists s, ts'. split_and!; try done.
  intros k. unfold get_sorted_tasks in Hs.
  destruct (_sorted ts); injection Hs as <- <-; [done |].
  apply py_sorted_stable, priority_key_le_trans.
Qed.

Lemma get_sorted_tasks_ascending_witness :
  exists s ts',
    get_sorted_tasks {| tasks := rev rm_example_assigned; _sorted := false |}
    = (s, ts')
    /\ s = rm_example_assigned.
Proof.
  destruct (get_sorted_tasks_ascending (rev rm_example_assigned)
              {| tasks := rev rm_example_assigned; _sorted := false |})
    as (s & ts' & Hs & _); [reflexivity |].
  exists s, ts'. split; [exact Hs |].
  vm_compute in Hs. by injection Hs as <- _.
Defined.

(** X9. The first query sorts the stored list; every later query, be it
    [get_sorted_tasks] or [get_higher_priority_tasks], finds the object in
    that state and leaves it unchanged. *)
Theorem queries_keep_sorted_state (ts : TaskSet) (s : list Task)
    (ts' : TaskSet) :
  get_sorted_tasks ts = (s, ts') ->
  get_sorted_tasks ts' = (s, ts')
  /\ (forall task hp ts'',
        get_higher_priority_tasks ts task = Ok (hp, ts'') -> ts'' = ts')
  /\ (forall task hp ts'',
        get_higher_priority_tasks ts' task = Ok (hp, ts'') -> ts'' = ts').
Proof.
  intros Hs. pose proof (get_sorted_tasks_cached _ _ _ Hs) as Hs'.
  split; [done |].
  split; intros task hp ts''; unfold get_higher_priority_tasks;
    destruct (priority task); try done.
  - rewrite Hs. by intros [= _ <-].
  - rewrite Hs'. by intros [= _ <-].
Qed.

Lemma queries_keep_sorted_state_witness :
  get_sorted_tasks {| tasks := rm_example_assigned; _sorted := true |}
  = (rm_example_assigned,
     {| tasks := rm_example_assigned; _sorted := true |}).
Proof.
  apply (queries_keep_sorted_state
           {| tasks := rev rm_example_assigned; _sorted := false |}).
  reflexivity.
Defined.

(** X10. [get_higher_priority_tasks] succeeds exactly for a task that has a
    priority, and then returns exactly the stored tasks whose priority
    number is strictly smaller: tasks of equal priority, the task itself
    among them, are left out. *)
Theorem higher_priority_tasks_exact (ts : TaskSet) (task : Task)
    (hp : list Task) (ts' : TaskSet) :
  get_higher_priority_tasks ts task = Ok (hp, ts') ->
  exists p, priority task = Some p
    /\ (forall t, t ∈ hp <->
          t ∈ tasks ts /\ exists q, priority t = Some q /\ (q < p)%Z)
    /\ task ∉ hp.
Proof.
  unfold get_higher_priority_tasks.
  destruct (priority task) as [p |] eqn:Hp; [| done].
  destruct (get_sorted_tasks ts) as [s ts1] eqn:Hs. intros [= <- <-].
  pose proof (get_sorted_tasks_perm _ _ _ Hs) as Hperm.
  assert (Hmem : forall t, t ∈ List.filter (priority_below p) s <->
            t ∈ tasks ts /\ exists q, priority t = Some q /\ (q < p)%Z).
  { intros t. rewrite list_elem_of_In, filter_In, <- list_elem_of_In, Hperm.
    unfold priority_below. split.
    - intros [Ht Hq]. split; [done |]. destruct (priority t) as [q |]; [| done].
      exists q. split; [done | lia].
    - intros [Ht (q & -> & Hq)]. split; [done | lia]. }
  exists p. split; [done |]. split; [done |].
  intros (_ & q & Hq & Hlt)%Hmem. rewrite Hp in Hq. injection Hq as <-. lia.
Qed.

Lemma higher_priority_tasks_exact_witness :
  exists hp ts',
    get_higher_priority_tasks
      {| tasks := rm_example_assigned; _sorted := true |}
      (task_of 2 20 20 "τ2" (Some 2%Z)) = Ok (hp, ts')
    /\ task_of 1 10 10 "τ1" (Some 1%Z) ∈ hp.
Proof.
  eexists _, _. split; [reflexivity |].
  destruct (higher_priority_tasks_exact
              {| tasks := rm_example_assigned; _sorted := true |}
              (task_of 2 20 20 "τ2" (Some 2%Z)) _ _ eq_refl)
    as (p & Hp & Hmem & _).
  injection Hp as <-. apply Hmem. split.
  - apply list_elem_of_In. cbn. tauto.
  - exists 1%Z. split; [done | lia].
Defined.

(** ** compute_response_time, further *)

Lemma rta_loop_iff task hp n : forall R0 R,
  rta_loop n task hp R0 = Converged R
  <-> exists k, (k < n)%nat
        /\ R = iterate_from task hp (S k) R0
        /\ (forall j, (j <= k)%nat ->
              iterate_from task hp (S j) R0 <= D task)
        /\ (forall j, (j < k)%nat ->
              ~ Qabs (iterate_from task hp (S j) R0
                      - iterate_from task hp j R0) < epsilon)
        /\ Qabs (iterate_from task hp (S k) R0 - iterate_from task hp k R0)
           < epsilon.
Proof.
  induction n as [| n IH]; intros R0 R; cbn [rta_loop].
  - split; [done | intros (k & Hk & _); lia].
  - destruct (Qlt_le_dec (D task) (R_next task hp R0)) as [Hmiss | Hmeet].
    { split; [done |]. intros (k & _ & _ & Hle & _).
      specialize (Hle 0%nat ltac:(lia)). cbn [iterate_from] in Hle. lra. }
    destruct (Qlt_le_dec _ epsilon) as [Hconv | Hgo].
    + split.
      * intros [= <-]. exists 0%nat.
        split; [lia |]. split; [done |].
        split; [intros j Hj; by replace j with 0%nat by lia |].
        split; [intros j Hj; lia | done].
      * intros (k & _ & -> & _ & Hnc & _). destruct k as [| k]; [done |].
        exfalso. apply (Hnc 0%nat); [lia | done].
    + rewrite IH. split.
      * intros (k & Hk & -> & Hle & Hnc & Hc).
        exists (S k).
        split; [lia |]. split; [done |].
        split; [intros [| j] Hj; [done | apply Hle; lia] |].
        split; [| done].
        intros [| j] Hj; [cbn [iterate_from]; lra | apply Hnc; lia].
      * intros (k & Hk & -> & Hle & Hnc & Hc). destruct k as [| k].
        { cbn [iterate_from] in Hc. lra. }
        exists k.
        split; [lia |]. split; [done |].
        split; [intros j Hj; apply (Hle (S j)); lia |].
        split; [intros j Hj; apply (Hnc (S j)); lia | done].
Qed.

Lemma rta_loop_more task hp n : forall m R0 R,
  (n <= m)%nat ->
  rta_loop n task hp R0 = Converged R -> rta_loop m task hp R0 = Converged R.
Proof.
  intros m R0 R Hnm. rewrite !rta_loop_iff.
  intros (k & Hk & H). exists k. split; [lia | done].
Qed.

(** X12. Raising the iteration cap never changes a response time that a
    smaller cap already gave. *)
Theorem larger_cap_keeps_response task hp (n m : Z) R :
  (n <= m)%Z ->
  compute_response_time task hp n = Some R ->
  compute_response_time task hp m = Some R.
Proof.
  intros Hnm. unfold compute_response_time.
  destruct (rta_loop (Z.to_nat n) _ _ _) as [R1 | |] eqn:Hn; try done.
  intros [= ->].
  by rewrite (rta_loop_more task hp (Z.to_nat n) (Z.to_nat m) _ R
                ltac:(lia) Hn).
Qed.

Lemma larger_cap_keeps_response_witness :
  compute_response_time tau2 [tau1] 1000 = Some 3.
Proof.
  apply (larger_cap_keeps_response tau2 [tau1] 2 1000 3); [lia |].
  vm_compute. reflexivity.
Defined.








(** ** analyze_taskset, further *)

Lemma analyze_loop_missing_priority l : forall ts d b,
  (exists t, t ∈ l /\ has_priority t = false) ->
  exists msg, analyze_loop l ts d b = Raise (ValueError msg).
Proof.
  induction l as [| x l IH]; intros ts d b (t & Ht & Hp).
  - by apply elem_of_nil in Ht.
  - cbn [analyze_loop]. unfold get_higher_priority_tasks.
    destruct (priority x) as [p |] eqn:Hx; [| by eexists].
    destruct (get_sorted_tasks ts) as [s ts1]. cbn.
    apply IH. exists t. split; [| done].
    apply elem_of_cons in Ht as [-> | Ht]; [| done].
    unfold has_priority in Hp. by rewrite Hx in Hp.
Qed.



Lemma analyze_loop_state l : forall ts s d b b' d' ts'',
  get_sorted_tasks ts = (s, ts) ->
  analyze_loop l ts d b = Ok (b', d', ts'') -> ts'' = ts.
Proof.
  induction l as [| x l IH]; intros ts s d b b' d' ts'' Hs; cbn [analyze_loop].
  - by intros [= _ _ <-].
  - unfold get_higher_priority_tasks.
    destruct (priority x) as [p |]; [| done]. rewrite Hs. cbn.
    by apply (IH ts s).
Qed.

(** X19. A successful analysis leaves the task set with the same tasks,
    reordered by priority, and marked sorted; the returned boolean is
    false as soon as the mapping holds an absent response time. *)
Theorem analyze_taskset_effect (ts : TaskSet) b d ts' :
  analyze_taskset ts = Ok (b, d, ts') ->
  ts' = (get_sorted_tasks ts).2
  /\ tasks ts' ≡ₚ tasks ts
  /\ _sorted ts' = true
  /\ (forall k, d !! k = Some None -> b = false).
Proof.
  unfold analyze_taskset.
  destruct (get_sorted_tasks ts) as [s ts1] eqn:Hs. intros Hrun.
  pose proof (get_sorted_tasks_cached _ _ _ Hs) as Hs1.
  pose proof (analyze_loop_state _ _ _ _ _ _ _ _ Hs1 Hrun) as ->.
  assert (Hp : Forall (fun t => has_priority t = true) s).
  { apply Forall_forall. intros t Ht.
    destruct (has_priority t) eqn:Hpt; [done | exfalso].
    destruct (analyze_loop_missing_priority s ts1 ∅ true) as [msg Hmsg];
      [by exists t |].
    by rewrite Hmsg in Hrun. }
  rewrite (analyze_loop_spec s ts1 s ∅ true Hs1 Hp) in Hrun.
  injection Hrun as <- <-.
  split; [done |]. split_and!.
  - unfold get_sorted_tasks in Hs.
    destruct (_sorted ts); injection Hs as <- <-; [done |].
    apply py_sorted_perm.
  - unfold get_sorted_tasks in Hs.
    by destruct (_sorted ts) eqn:Hflag; injection Hs as <- <-.
  - intros k (t & Ht & _ & Hnone)%record_all_origin.
    cbn. apply not_true_iff_false. rewrite forallb_forall. intros Hall.
    apply list_elem_of_In, Hall in Ht. unfold has_response in Ht.
    by rewrite <- Hnone in Ht.
Qed.

Lemma analyze_taskset_effect_witness :
  exists b d ts',
    analyze_taskset {| tasks := rev rm_example_assigned; _sorted := false |}
    = Ok (b, d, ts')
    /\ tasks ts' ≡ₚ rev rm_example_assigned /\ _sorted ts' = true.
Proof.
  destruct (analyze_taskset
              {| tasks := rev rm_example_assigned; _sorted := false |})
    as [[[b d] ts'] | e] eqn:Hrun; [| vm_compute in Hrun; discriminate].
  exists b, d, ts'. split; [reflexivity |].
  destruct (analyze_taskset_effect _ b d ts' Hrun) as (_ & Hperm & Hflag & _).
  by split.
Defined.




(** ** Generators, further *)

Lemma uunifast_loop_length `{PRNG} `{FloatMath} count : forall n i g sum_u us,
  length (uunifast_loop count n i g sum_u us).1 = (length us + count)%nat.
Proof.
  induction count as [| count IH]; intros n i g sum_u us; cbn [uunifast_loop].
  - cbn. lia.
  - destruct (random g) as [x g']. rewrite IH, length_app. cbn. lia.
Qed.

Lemma uunifast_length `{PRNG} `{FloatMath} n u_total seed us :
  uunifast n u_total seed = Ok us ->
  (0 < n)%Z /\ 0 <= u_total /\ length us = Z.to_nat n.
Proof.
  unfold uunifast. destruct (n <=? 0)%Z eqn:Hn; [done |].
  destruct (Qle_bool 0 u_total) eqn:Hu; [| done]. cbn [negb].
  pose proof (uunifast_loop_length (Z.to_nat (n - 1)) n 1 (Random seed)
                u_total []) as Hlen.
  destruct (uunifast_loop _ _ _ _ _ _) as [us0 s]. intros [= <-].
  split; [lia |]. split; [by apply Qle_bool_iff |].
  rewrite length_app. cbn in *. lia.
Qed.

Section GeneratorBounds.
Context `{PRNG} `{FloatMath}.
Hypothesis random_unit : forall g, 0 <= (random g).1 < 1.
Hypothesis pow_unit :
  forall x y, 0 <= x < 1 -> 0 < y -> 0 <= pow x y <= 1.

Lemma uunifast_loop_upper count : forall n i g sum_u us (bound : Q),
  (i + Z.of_nat count = n)%Z ->
  0 <= sum_u -> sum_u <= bound -> Forall (fun x => x <= bound) us ->
  let '(us', s') := uunifast_loop count n i g sum_u us in
  Forall (fun x => x <= bound) us' /\ 0 <= s' /\ s' <= bound.
Proof.
  induction count as [| count IH]; intros n i g sum_u us bound Hi Hs Hb Hus;
    cbn [uunifast_loop]; [done |].
  pose proof (random_unit g) as Hx.
  destruct (random g) as [x g'] eqn:Hg. cbn [fst] in Hx.
  assert (Hexp : 0 < 1 / inject_Z (n - i)).
  { apply Qdiv_pos; [lra |]. change 0 with (inject_Z 0).
    rewrite <- Zlt_Qlt. lia. }
  pose proof (pow_unit x _ Hx Hexp) as [Hp0 Hp1].
  set (f := pow x (1 / inject_Z (n - i))) in *.
  assert (Hn0 : 0 <= sum_u * f) by (by apply Qmult_le_0_compat).
  assert (Hn1 : sum_u * f <= sum_u).
  { apply Qle_trans with (sum_u * 1); [| lra].
    rewrite !(Qmult_comm sum_u). by apply Qmult_le_compat_r. }
  apply (IH n (i + 1)%Z g' (sum_u * f)); [lia | done | lra |].
  apply Forall_app. split; [done |]. constructor; [lra | done].
Qed.

(** X21. No utilization that [uunifast] returns exceeds [u_total]. *)
Theorem uunifast_component_bound (n : Z) (u_total : Q) (seed : option Z)
    (us : list Q) :
  uunifast n u_total seed = Ok us ->
  Forall (fun x => x <= u_total) us.
Proof.
  intros Hus. destruct (uunifast_length _ _ _ _ Hus) as (Hn & Hu & _).
  unfold uunifast in Hus.
  assert ((n <=? 0)%Z = false) as Hn' by lia. rewrite Hn' in Hus.
  assert (Qle_bool 0 u_total = true) as Hu' by (by apply Qle_bool_iff).
  rewrite Hu' in Hus. cbn [negb] in Hus.
  pose proof (uunifast_loop_upper (Z.to_nat (n - 1)) n 1 (Random seed)
                u_total [] u_total) as Hloop.
  destruct (uunifast_loop _ _ _ _ _ _) as [us0 s].
  injection Hus as <-.
  destruct Hloop as (Hall & _ & Hs); [lia | done | lra | done |].
  apply Forall_app. split; [done |]. by constructor.
Qed.
End GeneratorBounds.

Lemma uunifast_component_bound_witness :
  exists us,
    @uunifast counter_prng coarse_math 3 (7 # 10) (Some 42%Z) = Ok us
    /\ Forall (fun x => x <= 7 # 10) us.
Proof.
  eexists. split; [reflexivity |].
  apply (@uunifast_component_bound counter_prng coarse_math)
    with (n := 3%Z) (seed := Some 42%Z).
  - intros g. cbn. split; [done |]. unfold Qlt. cbn. lia.
  - intros x y [Hx0 Hx1] _. cbn. split; lra.
  - reflexivity.
Defined.

Lemma generate_loop_inv `{PRNG} `{FloatMath} us : forall i g pmin pmax dmin dmax
    tasks,
  generate_loop i us g pmin pmax dmin dmax = Ok tasks ->
  length tasks = length us
  /\ Forall valid_task tasks
  /\ Forall (fun t => priority t = None) tasks
  /\ (forall k t, tasks !! k = Some t ->
        name t = "τ" +:+ str_of_int (i + Z.of_nat k + 1)).
Proof.
  induction us as [| u us IH]; intros i g pmin pmax dmin dmax tasks;
    cbn [generate_loop].
  - intros [= <-]. repeat split; try constructor. done.
  - destruct (uniform g (log pmin) (log pmax)) as [x g1].
    destruct (if Qeq_bool dmin dmax then _ else _) as [factor g2].
    destruct (Task_init _ _ _ _ _) as [task | e] eqn:Hinit; cbn; [| intros [=]].
    destruct (generate_loop (i + 1) us g2 _ _ _ _) as [rest | e] eqn:Hrest;
      cbn; [| intros [=]].
    intros [= <-].
    destruct (IH _ _ _ _ _ _ _ Hrest) as (Hlen & Hv & Hp & Hn).
    destruct (Task_init_ok _ _ _ _ _ _ Hinit)
      as (Hvt & _ & _ & _ & Hname & Hprio).
    split_and!.
    + cbn. by rewrite Hlen.
    + by constructor.
    + by constructor.
    + intros [| k] t; cbn.
      * intros [= <-]. rewrite Hname. do 2 f_equal. lia.
      * intros Hk%Hn. rewrite Hk. do 2 f_equal. lia.
Qed.

Lemma generate_taskset_inv `{PRNG} `{FloatMath} n u pmin pmax dmin dmax seed
    ts :
  generate_taskset n u pmin pmax dmin dmax seed = Ok ts ->
  exists us tasks,
    uunifast n u seed = Ok us
    /\ generate_loop 0 us (Random seed) pmin pmax dmin dmax = Ok tasks
    /\ TaskSet_init tasks = Ok ts.
Proof.
  unfold generate_taskset.
  destruct (Qle_bool pmin 0 || Qle_bool pmax 0
            || negb (Qle_bool pmin pmax)); [done |].
  destruct (Qle_bool dmin 0 || negb (Qle_bool dmin dmax)); [done |].
  destruct (negb (Qle_bool dmax 1)); [done |].
  destruct (uunifast n u seed) as [us | e]; cbn; [| intros [=]].
  destruct (generate_loop 0 us (Random seed) pmin pmax dmin dmax)
    as [tasks | e] eqn:Hgen; cbn; [| intros [=]].
  intros Hts. by exists us, tasks.
Qed.

Lemma rederive_keeps_name i t :
  nonempty (name t) = true -> name (rederive i t) = name t.
Proof. unfold rederive. cbn. by intros ->. Qed.

(** X22. A task set that [generate_taskset] returns has exactly [n] tasks,
    all valid, in ascending order of period, with the priorities
    [0 .. n-1] in that order, and it is marked sorted; the names are those
    given at generation, ["τ1" .. "τn"], reordered. *)
Theorem generate_taskset_shape `{PRNG} `{FloatMath} n u pmin pmax dmin dmax
    seed ts :
  generate_taskset n u pmin pmax dmin dmax seed = Ok ts ->
  (0 < n)%Z
  /\ length (tasks ts) = Z.to_nat n
  /\ Forall valid_task (tasks ts)
  /\ StronglySorted (fun a b => T a <= T b) (tasks ts)
  /\ priority <$> tasks ts
     = (fun i => Some (Z.of_nat i)) <$> seq 0 (Z.to_nat n)
  /\ name <$> tasks ts
     ≡ₚ (fun i => "τ" +:+ str_of_int (Z.of_nat i + 1)) <$> seq 0 (Z.to_nat n)
  /\ _sorted ts = true.
Proof.
  intros (us & tasks & Hus & Hgen & Hts)%generate_taskset_inv.
  destruct (uunifast_length _ _ _ _ Hus) as (Hn & _ & Hlen).
  destruct (generate_loop_inv _ _ _ _ _ _ _ _ Hgen)
    as (Hlen' & Hv & Hp & Hnames).
  destruct (TaskSet_init_unassigned tasks Hv Hp) as (ts' & Hts' & Htasks).
  rewrite Hts in Hts'. injection Hts' as <-.
  assert (Hsl : length (py_sorted period_le tasks) = Z.to_nat n).
  { by rewrite py_sorted_length, Hlen', Hlen. }
  assert (Hne : Forall (fun t => nonempty (name t) = true) tasks).
  { apply Forall_forall. intros t [k Hk]%list_elem_of_lookup.
    by rewrite (Hnames k t Hk). }
  split; [done |]. split_and!.
  - by rewrite Htasks, length_imap.
  - by apply (TaskSet_init_valid tasks ts).
  - rewrite Htasks. apply StronglySorted_of_lookup.
    intros i j x y Hij Hi Hj.
    apply imap_rederive_lookup in Hi as (x0 & Hi & ->).
    apply imap_rederive_lookup in Hj as (y0 & Hj & ->). cbn.
    pose proof (py_sorted_sorted period_le period_le_total period_le_trans
                  tasks) as Hs.
    pose proof (StronglySorted_lookup _ _ i j x0 y0 Hs Hi Hj Hij) as Hle.
    by apply Qle_bool_iff.
  - by rewrite Htasks, imap_rederive_priorities, Hsl.
  - rewrite Htasks.
    assert (name <$> imap (fun k => rederive (Z.of_nat k))
                       (py_sorted period_le tasks)
            = name <$> py_sorted period_le tasks) as ->.
    { apply list_eq. intros i.
      rewrite !list_lookup_fmap, list_lookup_imap.
      destruct (py_sorted period_le tasks !! i) as [t |] eqn:Hi; [| done].
      cbn. f_equal. apply rederive_keeps_name.
      rewrite Forall_forall in Hne. apply Hne.
      rewrite <- (py_sorted_perm period_le tasks).
      apply list_elem_of_lookup. by exists i. }
    rewrite (py_sorted_perm period_le tasks).
    assert (name <$> tasks
            = (fun i => "τ" +:+ str_of_int (Z.of_nat i + 1))
                <$> seq 0 (Z.to_nat n)) as ->; [| done].
    apply list_eq. intros k. rewrite !list_lookup_fmap.
    destruct (tasks !! k) as [t |] eqn:Hk; cbn.
    + apply lookup_lt_Some in Hk as Hlt. rewrite Hlen', Hlen in Hlt.
      rewrite lookup_seq_lt by done. cbn. f_equal.
      by rewrite (Hnames k t Hk).
    + apply lookup_ge_None in Hk. rewrite Hlen', Hlen in Hk.
      by rewrite lookup_seq_ge.
  - destruct (TaskSet_init_cases tasks ts Hts)
      as [[Hall ->] | (new & _ & ->)]; [| done].
    exfalso. destruct tasks as [| t rest]; [cbn in *; lia |].
    apply Forall_cons in Hall as [Ht _], Hp as [Hpt _].
    unfold has_priority in Ht. by rewrite Hpt in Ht.
Qed.

Lemma generate_taskset_shape_witness :
  exists ts,
    @generate_taskset counter_prng coarse_math 2 (1 # 2) 10 1000 1 1
      (Some 42%Z) = Ok ts
    /\ length (tasks ts) = 2%nat.
Proof.
  destruct (@generate_taskset counter_prng coarse_math 2 (1 # 2) 10 1000 1 1
              (Some 42%Z)) as [ts | e] eqn:Hgen;
    [| vm_compute in Hgen; discriminate].
  exists ts. split; [reflexivity |].
  by destruct (generate_taskset_shape _ _ _ _ _ _ _ _ Hgen) as (_ & -> & _).
Defined.

Lemma uunifast_loop_zero `{PRNG} `{FloatMath} count :
  forall n i g sum_u us,
  sum_u == 0 -> Forall (fun x => x == 0) us ->
  Forall (fun x => x == 0) (uunifast_loop count n i g sum_u us).1
  /\ (uunifast_loop count n i g sum_u us).2 == 0.
Proof.
  induction count as [| count IH]; intros n i g sum_u us Hs Hus;
    cbn [uunifast_loop]; [done |].
  destruct (random g) as [x g'].
  apply IH.
  - rewrite Hs. ring.
  - apply Forall_app. split; [done |]. constructor; [| done].
    rewrite Hs. ring.
Qed.

Lemma uunifast_zero `{PRNG} `{FloatMath} n u seed :
  (0 < n)%Z -> u == 0 ->
  exists x rest, uunifast n u seed = Ok (x :: rest) /\ x == 0.
Proof.
  intros Hn Hu. unfold uunifast.
  assert ((n <=? 0)%Z = false) as -> by lia.
  assert (Qle_bool 0 u = true) as -> by (apply Qle_bool_iff; lra).
  cbn [negb].
  destruct (uunifast_loop_zero (Z.to_nat (n - 1)) n 1 (Random seed) u [])
    as [Hall Hs]; [done | done |].
  destruct (uunifast_loop _ _ _ _ _ _) as [[| x us] s]; cbn in *.
  - by exists s, [].
  - exists x, (us ++ [s]). split; [done |]. by apply Forall_cons in Hall as [? _].
Qed.

(** X23. A utilization target of zero cannot be generated: with valid
    ranges and [n > 0], [generate_taskset] fails with the [ValueError] of
    the first task, whose execution time is zero. *)
Theorem generate_taskset_zero_target `{PRNG} `{FloatMath} n u pmin pmax
    dmin dmax seed :
  (0 < n)%Z -> u == 0 ->
  0 < pmin -> pmin <= pmax -> 0 < dmin -> dmin <= dmax -> dmax <= 1 ->
  exists t,
    generate_taskset n u pmin pmax dmin dmax seed
    = Raise (ValueError [Text "Task "; Text "τ1";
                         Text ": C must be positive, got "; FloatRepr t]).
Proof.
  intros Hn Hu Hp1 Hp2 Hd1 Hd2 Hd3. unfold generate_taskset.
  assert (Qle_bool pmin 0 = false) as -> by (apply Qle_bool_false; lra).
  assert (Qle_bool pmax 0 = false) as -> by (apply Qle_bool_false; lra).
  assert (Qle_bool pmin pmax = true) as -> by (by apply Qle_bool_iff).
  assert (Qle_bool dmin 0 = false) as -> by (apply Qle_bool_false; lra).
  assert (Qle_bool dmin dmax = true) as -> by (by apply Qle_bool_iff).
  assert (Qle_bool dmax 1 = true) as -> by (by apply Qle_bool_iff).
  cbn [negb orb].
  destruct (uunifast_zero n u seed Hn Hu) as (x & rest & -> & Hx).
  cbn [mbind result_bind generate_loop].
  destruct (uniform (Random seed) (log pmin) (log pmax)) as [y g1].
  destruct (if Qeq_bool dmin dmax then _ else _) as [factor g2].
  unfold Task_init.
  assert (Qle_bool (x * exp y) 0 = true) as ->.
  { apply Qle_bool_iff. rewrite Hx. lra. }
  by eexists.
Qed.

Lemma generate_taskset_zero_target_witness :
  is_ok (@generate_taskset counter_prng coarse_math 3 0 10 1000 1 1
           (Some 42%Z)) = false.
Proof.
  destruct (@generate_taskset_zero_target counter_prng coarse_math
              3 0 10 1000 1 1 (Some 42%Z)) as [t ->]; try done.
Defined.

Lemma generate_flat_loop_inv `{PRNG} `{FloatMath} us :
  forall i g pmin pmax tasks,
  generate_flat_loop i us g pmin pmax = Ok tasks ->
  length tasks = length us
  /\ Forall valid_task tasks
  /\ Forall (fun t => D t = T t /\ priority t = None
                      /\ (1 # 1000 <= C t \/ C t = T t)) tasks
  /\ (forall k t, tasks !! k = Some t ->
        name t = "τ" +:+ str_of_int (i + Z.of_nat k + 1)).
Proof.
  induction us as [| u us IH]; intros i g pmin pmax tasks;
    cbn [generate_flat_loop].
  - intros [= <-]. repeat split; try constructor. done.
  - destruct (uniform g (log pmin) (log pmax)) as [x g1].
    destruct (Task_init _ _ _ _ _) as [task | e] eqn:Hinit; cbn;
      [| intros [=]].
    destruct (generate_flat_loop (i + 1) us g1 _ _) as [rest | e] eqn:Hrest;
      cbn; [| intros [=]].
    intros [= <-].
    destruct (IH _ _ _ _ _ Hrest) as (Hlen & Hv & Hp & Hn).
    destruct (Task_init_ok _ _ _ _ _ _ Hinit)
      as (Hvt & HC & HT & HD & Hname & Hprio).
    split_and!.
    + cbn. by rewrite Hlen.
    + by constructor.
    + constructor; [| done]. cbn in HD. split_and!; [congruence | done |].
      rewrite HC, HT.
      destruct (Qle_bool (1 # 1000) (u * exp x)) eqn:Hfloor; cbn [negb].
      * destruct (Qle_bool (u * exp x) (exp x)); cbn [negb]; [| by right].
        left. by apply Qle_bool_iff.
      * destruct (Qle_bool (1 # 1000) (exp x)); cbn [negb]; [| by right].
        left. lra.
    + intros [| k] t; cbn.
      * intros [= <-]. rewrite Hname. do 2 f_equal. lia.
      * intros Hk%Hn. rewrite Hk. do 2 f_equal. lia.
Qed.

(** X24. The flat generator, when it succeeds, returns exactly [n] valid
    tasks with implicit deadlines ([D = T]), without priorities, named
    ["τ1" .. "τn"] in generation order, each with an execution time of at
    least [0.001] unless it was capped at the period. *)
Theorem flat_generator_shape `{PRNG} `{FloatMath} n u pmin pmax seed tasks :
  generate_random_task_set_uunifast n u pmin pmax seed = Ok tasks ->
  length tasks = Z.to_nat n
  /\ Forall valid_task tasks
  /\ Forall (fun t => D t = T t /\ priority t = None
                      /\ (1 # 1000 <= C t \/ C t = T t)) tasks
  /\ name <$> tasks
     = (fun i => "τ" +:+ str_of_int (Z.of_nat i + 1)) <$> seq 0 (Z.to_nat n).
Proof.
  unfold generate_random_task_set_uunifast.
  destruct (n <=? 0)%Z; [done |].
  destruct (Qle_bool pmin 0 || Qle_bool pmax 0
            || negb (Qle_bool pmin pmax)); [done |].
  destruct (negb (Qle_bool 0 u)); [done |].
  destruct (uunifast n u seed) as [us | e] eqn:Hus; cbn; [| intros [=]].
  intros Hgen. destruct (uunifast_length _ _ _ _ Hus) as (_ & _ & Hlen).
  destruct (generate_flat_loop_inv _ _ _ _ _ _ Hgen)
    as (Hlen' & Hv & Hshape & Hnames).
  split_and!; try done; [congruence |].
  apply list_eq. intros k. rewrite !list_lookup_fmap.
  destruct (tasks !! k) as [t |] eqn:Hk; cbn.
  - apply lookup_lt_Some in Hk as Hlt. rewrite Hlen', Hlen in Hlt.
    rewrite lookup_seq_lt by done. cbn. f_equal.
    by rewrite (Hnames k t Hk).
  - apply lookup_ge_None in Hk. rewrite Hlen', Hlen in Hk.
    by rewrite lookup_seq_ge.
Qed.

Lemma flat_generator_shape_witness :
  exists tasks,
    @generate_random_task_set_uunifast counter_prng coarse_math 2 0 10 1000
      (Some 42%Z) = Ok tasks
    /\ name <$> tasks = ["τ1"; "τ2"]
    /\ Forall (fun t => C t == 1 # 1000) tasks.
Proof.
  destruct (@generate_random_task_set_uunifast counter_prng coarse_math 2 0
              10 1000 (Some 42%Z)) as [tasks | e] eqn:Hgen;
    [| vm_compute in Hgen; discriminate].
  exists tasks. split; [reflexivity |].
  destruct (flat_generator_shape _ _ _ _ _ _ Hgen) as (_ & _ & _ & Hnames).
  split; [exact Hnames |].
  vm_compute in Hgen. injection Hgen as <-.
  repeat constructor.
Defined.

(** ** run_schedulability_experiment *)

Lemma dict_get_set_eq k v d : dict_get k (dict_set k v d) = Some v.
Proof.
  induction d as [| [k' v'] d IH]; cbn.
  - by rewrite Qeq_bool_refl.
  - destruct (Qeq_bool k' k) eqn:Hk; cbn; by rewrite Hk.
Qed.

Lemma dict_get_set_is_Some k k' v d :
  is_Some (dict_get k d) -> is_Some (dict_get k (dict_set k' v d)).
Proof.
  induction d as [| [k0 v0] d IH]; cbn; [by intros [? ?] |].
  destruct (Qeq_bool k0 k') eqn:Hk'; cbn;
    destruct (Qeq_bool k0 k) eqn:Hk; eauto.
Qed.

Lemma dict_set_values k v d (P : Q -> Prop) :
  P v -> Forall (fun kv => P kv.2) d ->
  Forall (fun kv => P kv.2) (dict_set k v d).
Proof.
  intros Hv. induction 1 as [| [k' v'] d Hkv Hd IH]; cbn.
  - by repeat constructor.
  - destruct (Qeq_bool k' k); constructor; done.
Qed.

Lemma count_schedulable_bounds `{PRNG} `{FloatMath} iters :
  forall i count u num_tasks pmin pmax seed count',
  count_schedulable iters i count u num_tasks pmin pmax seed = Ok count' ->
  (count <= count' <= count + Z.of_nat iters)%Z.
Proof.
  induction iters as [| iters IH];
    intros i count u num_tasks pmin pmax seed count'; cbn [count_schedulable].
  - intros [= <-]. lia.
  - destruct (generate_taskset _ _ _ _ _ _ _) as [ts | e]; cbn;
      [| intros [=]].
    destruct (analyze_taskset ts) as [[[b d] ts'] | e]; cbn; [| intros [=]].
    intros Hrest%IH. destruct b; lia.
Qed.

Lemma ratio_unit (count num : Z) (r : Q) :
  (0 <= count <= Z.of_nat (Z.to_nat num))%Z ->
  int_truediv count num = Ok r -> 0 <= r <= 1.
Proof.
  unfold int_truediv. intros Hc. destruct (num =? 0)%Z eqn:Hnum; [done |].
  intros [= <-]. apply Z.eqb_neq in Hnum.
  destruct (Z.lt_ge_cases 0 num) as [Hpos | Hneg].
  - assert (0 < inject_Z num) by (change 0 with (inject_Z 0);
                                  by rewrite <- Zlt_Qlt).
    assert (0 <= inject_Z count) by (change 0 with (inject_Z 0);
                                     rewrite <- Zle_Qle; lia).
    assert (inject_Z count <= inject_Z num) by (rewrite <- Zle_Qle; lia).
    split.
    + by apply Qdiv_nonneg.
    + apply Qle_shift_div_r; [done | lra].
  - assert (count = 0%Z) as -> by lia.
    assert (inject_Z 0 / inject_Z num == 0) as ->.
    { unfold Qdiv. change (inject_Z 0) with 0. ring. }
    lra.
Qed.

Lemma experiment_loop_spec `{PRNG} `{FloatMath} points :
  forall results num num_tasks pmin pmax seed results',
  experiment_loop points results num num_tasks pmin pmax seed = Ok results' ->
  Forall (fun kv => 0 <= kv.2 <= 1) results ->
  Forall (fun kv => 0 <= kv.2 <= 1) results'
  /\ (forall u, u ∈ points -> is_Some (dict_get u results'))
  /\ (forall u, is_Some (dict_get u results) -> is_Some (dict_get u results'))
  /\ (points <> [] -> num <> 0%Z).
Proof.
  induction points as [| u points IH];
    intros results num num_tasks pmin pmax seed results';
    cbn [experiment_loop].
  - intros [= <-] Hr. split_and!; try done. intros u Hu.
    by apply elem_of_nil in Hu.
  - destruct (count_schedulable _ _ _ _ _ _ _ _) as [count |] eqn:Hcount;
      cbn; [| intros [=]].
    destruct (int_truediv count num) as [ratio |] eqn:Hratio; cbn;
      [| intros [=]].
    intros Hrest Hr.
    apply count_schedulable_bounds in Hcount.
    pose proof (ratio_unit count num ratio ltac:(lia) Hratio) as Hunit.
    destruct (IH _ _ _ _ _ _ _ Hrest) as (Hall & Hkeys & Hkeep & _).
    { by apply (dict_set_values u ratio results (fun v => 0 <= v <= 1)). }
    split_and!; try done.
    + intros u' [-> | Hu']%elem_of_cons; [| by apply Hkeys].
      apply Hkeep. rewrite dict_get_set_eq. eauto.
    + intros u' Hu'. by apply Hkeep, dict_get_set_is_Some.
    + intros _ ->. unfold int_truediv in Hratio. done.
Qed.

(** X25. When the experiment returns, every utilisation point has an entry
    in the result and every schedulability ratio lies in [[0, 1]]. *)
Theorem experiment_ratios_in_unit_interval `{PRNG} `{FloatMath}
    points num num_tasks pmin pmax seed results :
  run_schedulability_experiment points num num_tasks pmin pmax seed
  = Ok results ->
  Forall (fun kv => 0 <= kv.2 <= 1) results
  /\ (forall u, u ∈ points -> is_Some (dict_get u results)).
Proof.
  unfold run_schedulability_experiment. intros Hrun.
  destruct (experiment_loop_spec _ _ _ _ _ _ _ _ Hrun) as (? & ? & _);
    [constructor | done].
Qed.

Lemma experiment_ratios_in_unit_interval_witness :
  exists results,
    @run_schedulability_experiment counter_prng coarse_math
      [3 # 10; 7 # 10] 2 2 10 100 12345 = Ok results
    /\ Forall (fun kv => 0 <= kv.2 <= 1) results.
Proof.
  destruct (@run_schedulability_experiment counter_prng coarse_math
              [3 # 10; 7 # 10] 2 2 10 100 12345) as [results | e] eqn:Hrun;
    [| vm_compute in Hrun; discriminate].
  exists results. split; [reflexivity |].
  by destruct (experiment_ratios_in_unit_interval _ _ _ _ _ _ _ Hrun).
Defined.

(** X26. With [num_task_sets_per_point = 0] and at least one utilisation
    point the experiment generates nothing and fails on the division, with
    a [ZeroDivisionError]. *)
Theorem experiment_zero_sets_raises `{PRNG} `{FloatMath}
    u points num_tasks pmin pmax seed :
  run_schedulability_experiment (u :: points) 0 num_tasks pmin pmax seed
  = Raise (ZeroDivisionError [Text "division by zero"]).
Proof. reflexivity. Qed.


